(** * Case-duration histogram binning (gui/overview_screen.py)

    A shallow embedding of [get_quantiles_case_duration_pql],
    [get_num_cases_with_durations], [get_potential_extra_bins],
    [choose_extra_bins] and [compute_binned_distribution_case_durations],
    and the properties of the binning scheme.

    Conventions of the embedding.
    - The four quantile values read from the quantile data frame are numpy
      integer scalars ([range(bins_within)] accepts nothing else).  They are
      modelled by [Z]; case durations are far below the 64-bit bound, so no
      wrap-around is modelled.  What numpy does differently from Python, the
      division by zero, is written out in [int_ceil_true_div],
      [np_true_div_lt] and [np_floor_div].
    - The percentiles are Python floats, modelled by the rationals [Q]; the
      two true divisions of integers are exact at the size of durations.
    - The process-mining platform is the record [FeatureProcessor]: it
      answers a quantile query per requested fraction and a count query per
      interval.  A data frame has one column per query, in the order of the
      queries, labelled as the query names it; the quantile frame is read by
      label, as the function reads it.
    - Python exceptions are the constructor [Raise] of [result]. *)

From Stdlib Require Import String ZArith QArith List Bool Lia.
From Stdlib Require Import Permutation.
Import ListNotations.

Local Open Scope Z_scope.

(** ** Exceptions *)

(** The exceptions the functions can raise, and [InvalidConfiguration], the
    error kind the specification names: no statement of the source raises
    it. *)
Inductive exn : Type :=
| ZeroDivisionError   (* int / 0 on Python ints *)
| OverflowError       (* int(inf) *)
| ValueError          (* int(nan) *)
| TypeError           (* int(array of two values) *)
| InvalidConfiguration.

Inductive result (A : Type) : Type :=
| Ok (a : A)
| Raise (e : exn).

Arguments Ok {A} a.
Arguments Raise {A} e.

Definition bind {A B : Type} (r : result A) (k : A -> result B) : result B :=
  match r with
  | Ok a => k a
  | Raise e => Raise e
  end.

Notation "x <- r ;; k" := (bind r (fun x => k))
  (at level 61, r at next level, right associativity).

(** ** Data *)

(** A bin of the histogram: the tuple [(low, high)]. *)
Definition bin : Type := (Z * Z)%type.

(** An element of [duration_intervals]: either bound may be [None]. *)
Definition duration_interval : Type := (option Z * option Z)%type.

Definition closed (b : bin) : duration_interval := (Some (fst b), Some (snd b)).

(** The three queries [get_num_cases_with_durations] builds:
    [SUM(CASE WHEN (d <= hi) ...)], [SUM(CASE WHEN (d >= lo) ...)] and
    [SUM(CASE WHEN (d >= lo) AND (d <= hi) ...)]. *)
Inductive duration_query : Type :=
| AtMost (hi : Z)
| AtLeast (lo : Z)
| Between (lo hi : Z).

(** The platform behind [fp.dm.get_data_frame]. *)
Record FeatureProcessor : Type := {
  quantile_pql : string -> Q -> Z;
  count_pql : string -> duration_query -> Z
}.

(** A row of the returned data frame: columns [range] and [cases]. *)
Definition row : Type := (duration_interval * Z)%type.

(** ** Python and numpy arithmetic *)

(** [range(n)] and [range(1, n + 1)]; both are empty for [n <= 0]. *)
Definition range0 (n : Z) : list Z := map Z.of_nat (seq 0 (Z.to_nat n)).
Definition range1 (n : Z) : list Z := map Z.of_nat (seq 1 (Z.to_nat n)).

(** [1 / (2 * num_bins)] on Python ints. *)
Definition py_true_div_one (d : Z) : result Q :=
  if d =? 0 then Raise ZeroDivisionError else Ok (Qinv (inject_Z d)).

(** [int(np.ceil(a / b))] for a numpy integer [a] and a Python int [b]:
    numpy answers [a / 0] with an infinity or a nan, and [int] refuses both. *)
Definition int_ceil_true_div (a b : Z) : result Z :=
  if b =? 0 then
    if a =? 0 then Raise ValueError else Raise OverflowError
  else Ok (- ((- a) / b)).

(** [a / b < c] for a numpy integer [a]: [a / 0] is [-inf], [nan] or [inf],
    and only [-inf] is below [c]. *)
Definition np_true_div_lt (a b c : Z) : bool :=
  if b =? 0 then a <? 0
  else if 0 <? b then a <? c * b
  else c * b <? a.

(** [a // b] for a numpy integer [a]: [a // 0] is [0]. *)
Definition np_floor_div (a b : Z) : Z :=
  if b =? 0 then 0 else a / b.

(** ** get_quantiles_case_duration_pql *)

(** The one-line data frame of the quantile query: a column per requested
    quantile, in the order of the request, labelled [str(quantile)].  Two
    floats print alike exactly when they are equal, so a label is modelled by
    the fraction it prints and labels are compared with [Qeq_bool]. *)
Definition quantile_frame : Type := list (Q * Z).

Definition get_quantiles_case_duration_pql
    (fp : FeatureProcessor) (quantiles : list Q) (time_unit : string)
    : quantile_frame :=
  map (fun quantile => (quantile, quantile_pql fp time_unit quantile))
      quantiles.

(** [df_qs[str(quantile)].values[0]]: pandas selects every column that
    carries the label, so the first line of the selection holds one value
    per such column. *)
Definition first_values (df_qs : quantile_frame) (quantile : Q) : list Z :=
  map snd (filter (fun column => Qeq_bool (fst column) quantile) df_qs).

(** Where one column carries the label, [.values[0]] is a numpy integer
    scalar.  Where two columns share it, [.values[0]] is an array of both
    values: the subtraction, the division and [np.ceil] of the bin width
    work on arrays element by element, and [int] refuses the array with a
    [TypeError].  The labels [0.0] and [1.0] differ, so a shared label is
    always that of the lower or of the upper percentile, and no statement
    between the four reads and that [int] can fail: the error is raised
    here, at the read.  Every label read is one of the four requested, so
    the selection is never empty. *)
Definition np_scalar (values : list Z) : result Z :=
  match values with
  | [value] => Ok value
  | _ => Raise TypeError
  end.

(** ** get_num_cases_with_durations *)

(** One column per interval, named by the interval; the caller transposes
    the one-line data frame into the rows [(range, cases)]. *)
Definition get_num_cases_with_durations
    (fp : FeatureProcessor) (duration_intervals : list duration_interval)
    (time_unit : string) : list row :=
  flat_map
    (fun d =>
       match d with
       | (None, None) => []
       | (None, Some hi) => [(d, count_pql fp time_unit (AtMost hi))]
       | (Some lo, None) => [(d, count_pql fp time_unit (AtLeast lo))]
       | (Some lo, Some hi) => [(d, count_pql fp time_unit (Between lo hi))]
       end)
    duration_intervals.

(** ** get_potential_extra_bins *)

Definition get_potential_extra_bins
    (lower_end upper_end bin_width num_bins min_val max_val : Z)
    : list bin * list bin :=
  fold_left
    (fun (acc : list bin * list bin) (i : Z) =>
       let (potential_lowers, potential_uppers) := acc in
       let potential_lowers :=
         if min_val <? lower_end - i * bin_width then
           potential_lowers ++
             [(lower_end - i * bin_width, lower_end - (i - 1) * bin_width - 1)]
         else potential_lowers in
       let potential_uppers :=
         if upper_end + i * bin_width <? max_val then
           potential_uppers ++
             [(upper_end + 1 + (i - 1) * bin_width, upper_end + i * bin_width)]
         else potential_uppers in
       (potential_lowers, potential_uppers))
    (range1 num_bins) ([], []).

(** ** choose_extra_bins *)

Definition no_bin : bin := (0, 0).

(** The condition under which the loop body takes a lower bin. *)
Definition takes_lower (potential_lowers potential_uppers : list bin)
    (take_from_upper : bool) : bool :=
  ((0 <? length potential_lowers)%nat && (length potential_uppers =? 0)%nat)
  || ((0 <? length potential_lowers)%nat && negb take_from_upper).

(** The [for] loop, with [n] iterations left. *)
Fixpoint choose_loop (n : nat)
    (potential_lowers potential_uppers extra_bins_lower extra_bins_upper : list bin)
    (take_from_upper : bool) : list bin * list bin :=
  match n with
  | O => (extra_bins_lower, extra_bins_upper)
  | S n' =>
    if (length potential_lowers =? 0)%nat && (length potential_uppers =? 0)%nat
    then (extra_bins_lower, extra_bins_upper)
    else if takes_lower potential_lowers potential_uppers take_from_upper then
      choose_loop n'
        (removelast potential_lowers) potential_uppers
        ([last potential_lowers no_bin] ++ extra_bins_lower) extra_bins_upper
        true
    else
      choose_loop n'
        potential_lowers (tl potential_uppers)
        extra_bins_lower (extra_bins_upper ++ [hd no_bin potential_uppers])
        false
  end.

Definition choose_extra_bins
    (potential_lowers potential_uppers : list bin) (num_bins : Z)
    : list bin * list bin :=
  let potential_all := potential_lowers ++ potential_uppers in
  if (length potential_all =? 0)%nat then ([], [])
  else choose_loop (Z.to_nat num_bins)
         potential_lowers potential_uppers [] [] true.

(** ** compute_binned_distribution_case_durations *)

(** [int(np.ceil((upper_end - lower_end) / (num_bins - 2)))]. *)
Definition initial_bin_width (lower_end upper_end num_bins : Z) : result Z :=
  int_ceil_true_div (upper_end - lower_end) (num_bins - 2).

(** The [if] that follows: one less when the whole range is narrow. *)
Definition corrected_bin_width (min_val max_val num_bins bin_width : Z) : Z :=
  if np_true_div_lt (max_val - min_val + 1) bin_width num_bins
     && (1 <? bin_width)
  then bin_width - 1 else bin_width.

(** The locals of the function once the bin width is settled. *)
Record binning_inputs : Type := {
  min_val : Z;
  max_val : Z;
  lower_end : Z;
  upper_end : Z;
  bin_width : Z
}.

(** The quantiles asked of the platform and the bin width. *)
Definition binning_parameters
    (fp : FeatureProcessor) (num_bins : Z) (time_unit : string)
    : result binning_inputs :=
  let min_percentile := 0%Q in
  let max_percentile := 1%Q in
  lower_percentile <- py_true_div_one (2 * num_bins) ;;
  let upper_percentile := (1 - lower_percentile)%Q in
  let df_qs :=
    get_quantiles_case_duration_pql fp
      [lower_percentile; upper_percentile; min_percentile; max_percentile]
      time_unit in
  min_val <- np_scalar (first_values df_qs min_percentile) ;;
  max_val <- np_scalar (first_values df_qs max_percentile) ;;
  lower_end <- np_scalar (first_values df_qs lower_percentile) ;;
  upper_end <- np_scalar (first_values df_qs upper_percentile) ;;
  bin_width <- initial_bin_width lower_end upper_end num_bins ;;
  let bin_width := corrected_bin_width min_val max_val num_bins bin_width in
  Ok {| min_val := min_val; max_val := max_val;
        lower_end := lower_end; upper_end := upper_end;
        bin_width := bin_width |}.

Definition bins_within (p : binning_inputs) : Z :=
  np_floor_div (upper_end p - lower_end p + 1) (bin_width p).

Definition diff_bins (p : binning_inputs) (num_bins : Z) : Z :=
  num_bins - 2 - bins_within p.

Definition upper_end_within (p : binning_inputs) : Z :=
  lower_end p + bin_width p * bins_within p - 1.

Definition potential_extra_bins (p : binning_inputs) (num_bins : Z)
    : list bin * list bin :=
  get_potential_extra_bins
    (lower_end p) (upper_end_within p) (bin_width p) (diff_bins p num_bins)
    (min_val p) (max_val p).

(** The equal-width bins laid out from [lower_end]. *)
Definition core_bins (p : binning_inputs) : list bin :=
  map (fun i => (lower_end p + i * bin_width p,
                 lower_end p + (i + 1) * bin_width p - 1))
      (range0 (bins_within p)).

(** From the choice of the extra bins to the final list [bins]. *)
Definition assemble_bins (p : binning_inputs) (num_bins : Z) : list bin :=
  let bins := core_bins p in
  let (potential_lowers, potential_uppers) := potential_extra_bins p num_bins in
  let (extra_bins_lower, extra_bins_upper) :=
    choose_extra_bins potential_lowers potential_uppers (diff_bins p num_bins) in
  let min_inner_bin :=
    if (0 <? length extra_bins_lower)%nat
    then fst (hd no_bin extra_bins_lower) else lower_end p in
  let max_inner_bin :=
    if (0 <? length extra_bins_upper)%nat
    then snd (last extra_bins_upper no_bin) else upper_end_within p in
  let min_bin := (min_val p, min_inner_bin - 1) in
  let max_bin := (max_inner_bin + 1, max_val p) in
  [min_bin] ++ extra_bins_lower ++ bins ++ extra_bins_upper ++ [max_bin].

(** The list [bins] handed to [get_num_cases_with_durations]. *)
Definition distribution_bins
    (fp : FeatureProcessor) (num_bins : Z) (time_unit : string)
    : result (list bin) :=
  p <- binning_parameters fp num_bins time_unit ;;
  Ok (assemble_bins p num_bins).

Definition compute_binned_distribution_case_durations
    (fp : FeatureProcessor) (num_bins : Z) (time_unit : string)
    : result (list row) :=
  bins <- distribution_bins fp num_bins time_unit ;;
  Ok (get_num_cases_with_durations fp (map closed bins) time_unit).

(** ** Samples and accurate platforms *)

Definition satisfies (q : duration_query) (d : Z) : bool :=
  match q with
  | AtMost hi => d <=? hi
  | AtLeast lo => lo <=? d
  | Between lo hi => (lo <=? d) && (d <=? hi)
  end.

Definition sample_count (sample : list Z) (q : duration_query) : Z :=
  Z.of_nat (length (filter (satisfies q) sample)).

(** The platform counts intervals accurately on [sample]. *)
Definition counts_accurately (fp : FeatureProcessor) (sample : list Z) : Prop :=
  forall time_unit q, count_pql fp time_unit q = sample_count sample q.

Definition total_cases (rows : list row) : Z :=
  fold_right (fun r acc => snd r + acc) 0 rows.

(** Adjacent bins: [bin[i].high + 1 == bin[i+1].low]. *)
Fixpoint contiguous (bins : list bin) : bool :=
  match bins with
  | b :: ((b' :: _) as rest) => (snd b + 1 =? fst b') && contiguous rest
  | _ => true
  end.

Definition DAYS : string := "DAYS".

(** A platform that holds [sample] and answers the quantile queries with the
    given values: the minimum and the maximum at 0 and 1, [lower_v] at any
    other fraction up to one half and [upper_v] above. *)
Definition platform (min_v lower_v upper_v max_v : Z) (sample : list Z)
    : FeatureProcessor := {|
  quantile_pql := fun _ q =>
    if Qeq_bool q 0 then min_v
    else if Qeq_bool q 1 then max_v
    else if Qle_bool q (1 # 2) then lower_v
    else upper_v;
  count_pql := fun _ q => sample_count sample q
|}.

(** The sample 1..100: 5 at the 1/20 quantile, 95 at the 19/20 quantile. *)
Definition sample_1_100 : list Z := range1 100.

Definition fp_1_100 : FeatureProcessor := platform 1 5 95 100 sample_1_100.

(** The sample 1..18, a range too narrow for ten bins of width two. *)
Definition fp_1_18 : FeatureProcessor := platform 1 1 18 18 (range1 18).

(** A sample of 100 cases concentrated on 50 and 51. *)
Definition sample_concentrated : list Z :=
  [0; 47] ++ repeat 50 48 ++ repeat 51 49 ++ [100].

Definition fp_concentrated : FeatureProcessor :=
  platform 0 50 51 100 sample_concentrated.

(** Two candidate pools as [get_potential_extra_bins] lists them. *)
Definition two_lowers : list bin := [(3, 4); (1, 2)].
Definition two_uppers : list bin := [(7, 8); (9, 10)].

(** ** Vocabulary of the properties *)

(** The two percentiles the function computes from [num_bins]. *)
Definition lower_percentile (num_bins : Z) : Q := Qinv (inject_Z (2 * num_bins)).
Definition upper_percentile (num_bins : Z) : Q := (1 - lower_percentile num_bins)%Q.

(** The parameters [binning_parameters] returns when it returns. *)
Definition parameters_of
    (fp : FeatureProcessor) (num_bins : Z) (time_unit : string)
    : binning_inputs :=
  let lo := quantile_pql fp time_unit (lower_percentile num_bins) in
  let hi := quantile_pql fp time_unit (upper_percentile num_bins) in
  let mn := quantile_pql fp time_unit 0%Q in
  let mx := quantile_pql fp time_unit 1%Q in
  {| min_val := mn; max_val := mx; lower_end := lo; upper_end := hi;
     bin_width :=
       corrected_bin_width mn mx num_bins (- ((- (hi - lo)) / (num_bins - 2))) |}.

(** The extra bins chosen for the parameters [p]. *)
Definition extra_bins (p : binning_inputs) (num_bins : Z) : list bin * list bin :=
  choose_extra_bins (fst (potential_extra_bins p num_bins))
                    (snd (potential_extra_bins p num_bins))
                    (diff_bins p num_bins).

(** The bounds [min_inner_bin] and [max_inner_bin] of the function. *)
Definition min_inner_bin (p : binning_inputs) (num_bins : Z) : Z :=
  if (0 <? length (fst (extra_bins p num_bins)))%nat
  then fst (hd no_bin (fst (extra_bins p num_bins))) else lower_end p.

Definition max_inner_bin (p : binning_inputs) (num_bins : Z) : Z :=
  if (0 <? length (snd (extra_bins p num_bins)))%nat
  then snd (last (snd (extra_bins p num_bins)) no_bin)
  else upper_end_within p.

(** The rounds 1..k of a loop over [range(1, k + 1)]. *)
Definition rounds (k : nat) : list Z := map Z.of_nat (seq 1 k).

(** [bins] start at [start], each bin starts one above the end of the one
    before, and a bin that follows would start at [next]. *)
Fixpoint links (start : Z) (bins : list bin) (next : Z) : Prop :=
  match bins with
  | [] => start = next
  | b :: rest => fst b = start /\ links (snd b + 1) rest next
  end.

(** A bin that is a range or the empty range just below its low bound. *)
Definition well_ordered (b : bin) : Prop := fst b <= snd b + 1.

(** The cases of [sample] in the bins, added up. *)
Definition cases_in (sample : list Z) (bins : list bin) : Z :=
  fold_right
    (fun b acc => sample_count sample (Between (fst b) (snd b)) + acc) 0 bins.

(** The candidates of round [i] of [get_potential_extra_bins]. *)
Definition lower_candidate (lower_end bin_width i : Z) : bin :=
  (lower_end - i * bin_width, lower_end - (i - 1) * bin_width - 1).

Definition upper_candidate (upper_end bin_width i : Z) : bin :=
  (upper_end + 1 + (i - 1) * bin_width, upper_end + i * bin_width).

(** How many bins the loop takes from each pool in [n] rounds: the side in
    turn gets the larger half, and a pool that runs out leaves the rest of
    the rounds to the other. *)
Definition first_share (n mine other : nat) : nat :=
  Nat.min mine (Nat.max (n - n / 2) (n - other)).

Definition second_share (n mine other : nat) : nat :=
  Nat.min mine (Nat.max (n / 2) (n - other)).

Definition upper_share (n : nat) (take_from_upper : bool) (lowers uppers : nat)
    : nat :=
  if take_from_upper then first_share n uppers lowers
  else second_share n uppers lowers.

Definition lower_share (n : nat) (take_from_upper : bool) (lowers uppers : nat)
    : nat :=
  if take_from_upper then second_share n lowers uppers
  else first_share n lowers uppers.

(** The bins of the sample 1..100 for ten bins. *)
Definition bins_1_100 : list bin :=
  [(1, 4); (5, 15); (16, 26); (27, 37); (38, 48);
   (49, 59); (60, 70); (71, 81); (82, 92); (93, 100)].



(** The bins of the concentrated sample for ten bins. *)
Definition bins_concentrated : list bin :=
  [(0, 45); (46, 46); (45, 45); (44, 44); (50, 50);
   (51, 51); (52, 52); (53, 53); (54, 54); (55, 100)].

(** ** create_overview_screen *)

(** The data frame [df_distribution] of [OverviewScreen.create_overview_screen]:
    the binned distribution for ten bins and days. *)
Definition create_overview_screen_distribution (fp : FeatureProcessor)
    : result (list row) :=
  compute_binned_distribution_case_durations fp 10 DAYS.

(** [d == (None, None)], the test of [get_num_cases_with_durations]. *)
Definition is_unbounded (d : duration_interval) : bool :=
  match d with
  | (None, None) => true
  | _ => false
  end.

(** A bin that lies in the range of the sample: it starts at [min_val] or
    above, ends at [max_val] or below, and is a range or an empty range. *)
Definition inside (p : binning_inputs) (b : bin) : Prop :=
  min_val p <= fst b /\ fst b <= snd b + 1 /\ snd b <= max_val p.

(** The number of values of a bin: [high - low + 1]. *)
Definition bin_size (b : bin) : Z := snd b - fst b + 1.

(** * Process configuration (process_config/process_config.py)

    The tables of a data model as the class [ProcessConfig] holds them.  The
    field [dm] of the tables, the handle of the data model, plays no part in
    the functions below and is left out. *)

(** The exceptions of the look-ups: a missing dictionary key, an index into
    an empty list, an attribute the object does not have. *)
Inductive lookup_error : Type :=
| KeyError
| IndexError
| AttributeError.

Inductive attempt (A : Type) : Type :=
| Done (a : A)
| Fail (e : lookup_error).

Arguments Done {A} a.
Arguments Fail {A} e.

Inductive TableColumnType : Type :=
| STRING | BOOLEAN | INTEGER | FLOAT | DATETIME | TIME | DATE.

(** The value of each member of the enumeration. *)
Definition type_value (t : TableColumnType) : string :=
  match t with
  | STRING => "STRING"
  | BOOLEAN => "BOOLEAN"
  | INTEGER => "INTEGER"
  | FLOAT => "FLOAT"
  | DATETIME => "DATETIME"
  | TIME => "TIME"
  | DATE => "DATE"
  end.

Definition type_eqb (a b : TableColumnType) : bool :=
  (type_value a =? type_value b)%string.

Definition categorical_types : list TableColumnType := [STRING; BOOLEAN].
Definition numeric_types : list TableColumnType := [INTEGER; FLOAT].

(** [t in types] on members of the enumeration. *)
Definition type_in (t : TableColumnType) (types : list TableColumnType) : bool :=
  existsb (type_eqb t) types.

Record TableColumn : Type := {
  name : string;
  datatype : TableColumnType
}.

(** The subclasses of [BaseTable] with the fields each one adds. *)
Inductive table_class : Type :=
| ActivityTable (caseid_col_str activity_col_str eventtime_col_str : string)
                (sort_col_str case_table_str : option string)
| CaseTable (caseid_col_str : option string) (activity_tables_str : list string)
| OtherTable.

Record BaseTable : Type := {
  table_str : string;
  table_id : string;
  columns : list TableColumn;
  class_of : table_class
}.

Record ProcessConfig : Type := {
  activity_tables : list BaseTable;
  case_tables : list BaseTable;
  other_tables : list BaseTable
}.

(** [_gen_column_datatype]: the look-up in [datatype_mapping]. *)
Definition _gen_column_datatype (datatype_str : string)
    : attempt TableColumnType :=
  if (datatype_str =? "STRING")%string then Done STRING
  else if (datatype_str =? "BOOLEAN")%string then Done BOOLEAN
  else if (datatype_str =? "INTEGER")%string then Done INTEGER
  else if (datatype_str =? "FLOAT")%string then Done FLOAT
  else if (datatype_str =? "DATETIME")%string then Done DATETIME
  else if (datatype_str =? "TIME")%string then Done TIME
  else if (datatype_str =? "DATE")%string then Done DATE
  else Fail KeyError.

(** [_create_columns] on the entries [(c["name"], c["type"])] of
    [table.columns]: the comprehension stops at the first exception. *)
Fixpoint _create_columns (table_columns : list (string * string))
    : attempt (list TableColumn) :=
  match table_columns with
  | [] => Done []
  | (n, t) :: rest =>
    match _gen_column_datatype t with
    | Fail e => Fail e
    | Done ty =>
      match _create_columns rest with
      | Fail e => Fail e
      | Done cols => Done ({| name := n; datatype := ty |} :: cols)
      end
    end
  end.

(** [x in names] and [names.remove(x)]: the first occurrence goes. *)
Definition name_in (x : string) (names : list string) : bool :=
  existsb (String.eqb x) names.

Fixpoint remove_name (x : string) (names : list string) : list string :=
  match names with
  | [] => []
  | n :: rest => if (n =? x)%string then rest else n :: remove_name x rest
  end.

(** [if x in names: names.remove(x)], with [x] possibly [None]. *)
Definition drop_name (x : option string) (names : list string) : list string :=
  match x with
  | Some x => if name_in x names then remove_name x names else names
  | None => names
  end.

(** The table the two getters work on:
    [[t for t in activity + case + other if t.table_str == table_str][0]]. *)
Definition table_named (pc : ProcessConfig) (name_str : string)
    : attempt BaseTable :=
  match filter (fun t => (table_str t =? name_str)%string)
               (activity_tables pc ++ case_tables pc ++ other_tables pc) with
  | [] => Fail IndexError
  | t :: _ => Done t
  end.

Definition categorical_names (t : BaseTable) : list string :=
  map name (filter (fun c => type_in (datatype c) categorical_types) (columns t)).

Definition numeric_names (t : BaseTable) : list string :=
  map name (filter (fun c => type_in (datatype c) numeric_types) (columns t)).

Definition get_categorical_numerical_column_names
    (pc : ProcessConfig) (name_str : string)
    : attempt (list string * list string) :=
  match table_named pc name_str with
  | Fail e => Fail e
  | Done table =>
    let categorical_cols := categorical_names table in
    let numeric_cols := numeric_names table in
    match class_of table with
    | ActivityTable _ activity_col_str _ sort_col_str _ =>
      let categorical_cols := drop_name (Some activity_col_str) categorical_cols in
      let numeric_cols := drop_name (Some activity_col_str) numeric_cols in
      let categorical_cols := drop_name sort_col_str categorical_cols in
      let numeric_cols := drop_name sort_col_str numeric_cols in
      let categorical_cols := drop_name sort_col_str categorical_cols in
      let numeric_cols := drop_name sort_col_str numeric_cols in
      Done (categorical_cols, numeric_cols)
    | _ => Done (categorical_cols, numeric_cols)
    end
  end.

(** Equality of two [TableColumn] objects, field by field. *)
Definition column_eqb (a b : TableColumn) : bool :=
  (name a =? name b)%string && type_eqb (datatype a) (datatype b).

(** [cols.remove(col)]: the first column equal to [col] goes. *)
Fixpoint remove_column (col : TableColumn) (cols : list TableColumn)
    : list TableColumn :=
  match cols with
  | [] => []
  | c :: rest => if column_eqb c col then rest else c :: remove_column col rest
  end.

(** [if x in col_names: cols.remove([col for col in cols if col.name == x][0])]
    where [col_names] are the names of [cols] before any removal. *)
Definition drop_column (x : option string) (col_names : list string)
    (cols : list TableColumn) : attempt (list TableColumn) :=
  match x with
  | Some x =>
    if name_in x col_names then
      match filter (fun col => (name col =? x)%string) cols with
      | [] => Fail IndexError
      | col_to_remove :: _ => Done (remove_column col_to_remove cols)
      end
    else Done cols
  | None => Done cols
  end.

Definition and_then {A B : Type} (a : attempt A) (k : A -> attempt B)
    : attempt B :=
  match a with
  | Done x => k x
  | Fail e => Fail e
  end.

(** [table.caseid_col_str]: an attribute of activity and case tables only. *)
Definition caseid_col_of (t : BaseTable) : attempt (option string) :=
  match class_of t with
  | ActivityTable caseid_col_str _ _ _ _ => Done (Some caseid_col_str)
  | CaseTable caseid_col_str _ => Done caseid_col_str
  | OtherTable => Fail AttributeError
  end.

Definition get_categorical_numerical_columns
    (pc : ProcessConfig) (name_str : string)
    : attempt (list TableColumn * list TableColumn) :=
  and_then (table_named pc name_str) (fun table =>
  let categorical_col_names := categorical_names table in
  let categorical_cols :=
    filter (fun c => type_in (datatype c) categorical_types) (columns table) in
  let numeric_col_names := numeric_names table in
  let numeric_cols :=
    filter (fun c => type_in (datatype c) numeric_types) (columns table) in
  and_then
    (match class_of table with
     | ActivityTable _ activity_col_str _ sort_col_str _ =>
       and_then (drop_column (Some activity_col_str) categorical_col_names
                   categorical_cols) (fun categorical_cols =>
       and_then (drop_column (Some activity_col_str) numeric_col_names
                   numeric_cols) (fun numeric_cols =>
       and_then (drop_column sort_col_str categorical_col_names
                   categorical_cols) (fun categorical_cols =>
       and_then (drop_column sort_col_str numeric_col_names
                   numeric_cols) (fun numeric_cols =>
       Done (categorical_cols, numeric_cols)))))
     | _ => Done (categorical_cols, numeric_cols)
     end) (fun '(categorical_cols, numeric_cols) =>
  and_then (caseid_col_of table) (fun caseid_col_str =>
  and_then (drop_column caseid_col_str categorical_col_names categorical_cols)
    (fun categorical_cols =>
  and_then (caseid_col_of table) (fun caseid_col_str =>
  and_then (drop_column caseid_col_str numeric_col_names numeric_cols)
    (fun numeric_cols =>
  Done (categorical_cols, numeric_cols))))))).

(** [_get_case_table]: the first case table with the id, or [None]. *)
Definition _get_case_table (pc : ProcessConfig) (case_table_id : string)
    : option BaseTable :=
  find (fun t => (table_id t =? case_table_id)%string) (case_tables pc).

(** [_create_table_dict]: the dictionary comprehension over
    [activity_tables + case_tables + other_tables]; a later table takes the
    place of an earlier one of the same name. *)
Definition table_dict_of (tables : list BaseTable) : string -> option BaseTable :=
  fold_left
    (fun (d : string -> option BaseTable) (t : BaseTable) =>
       fun k => if (k =? table_str t)%string then Some t else d k)
    tables (fun _ => None).

Definition _create_table_dict (pc : ProcessConfig) : string -> option BaseTable :=
  table_dict_of (activity_tables pc ++ case_tables pc ++ other_tables pc).

(** [self.table_dict[table_str]]. *)
Definition table_dict_lookup (pc : ProcessConfig) (name_str : string)
    : attempt BaseTable :=
  match _create_table_dict pc name_str with
  | Some t => Done t
  | None => Fail KeyError
  end.

(** [self.activity_tables + self.case_tables + self.other_tables]. *)
Definition all_tables (pc : ProcessConfig) : list BaseTable :=
  activity_tables pc ++ case_tables pc ++ other_tables pc.

(** A column name other than the activity column and the sorting column. *)
Definition kept_name (activity_col_str : string) (sort_col_str : option string)
    (x : string) : bool :=
  negb (x =? activity_col_str)%string &&
  match sort_col_str with
  | Some s => negb (x =? s)%string
  | None => true
  end.

(** A process configuration with an activity table, its case table and one
    further table. *)
Definition activities_table : BaseTable := {|
  table_str := "ACTIVITIES";
  table_id := "t-1";
  columns := [ {| name := "CASE_ID"; datatype := STRING |};
               {| name := "ACTIVITY"; datatype := STRING |};
               {| name := "EVENTTIME"; datatype := DATETIME |};
               {| name := "SORTING"; datatype := INTEGER |};
               {| name := "USER"; datatype := STRING |};
               {| name := "COST"; datatype := FLOAT |} ];
  class_of := ActivityTable "CASE_ID" "ACTIVITY" "EVENTTIME"
                (Some "SORTING"%string) (Some "CASES"%string)
|}.

Definition cases_table : BaseTable := {|
  table_str := "CASES";
  table_id := "t-2";
  columns := [ {| name := "CASE_ID"; datatype := STRING |};
               {| name := "REGION"; datatype := STRING |};
               {| name := "AMOUNT"; datatype := FLOAT |} ];
  class_of := CaseTable (Some "CASE_ID"%string) ["ACTIVITIES"%string]
|}.

Definition vendors_table : BaseTable := {|
  table_str := "VENDORS";
  table_id := "t-3";
  columns := [ {| name := "VENDOR"; datatype := STRING |};
               {| name := "RATING"; datatype := INTEGER |} ];
  class_of := OtherTable
|}.

Definition example_config : ProcessConfig := {|
  activity_tables := [activities_table];
  case_tables := [cases_table];
  other_tables := [vendors_table]
|}.

(** A column other than the activity, the sorting and the case id column. *)
Definition kept_column (activity_col_str : string) (sort_col_str : option string)
    (caseid_col_str : string) (c : TableColumn) : bool :=
  kept_name activity_col_str sort_col_str (name c) &&
  negb (name c =? caseid_col_str)%string.

Definition categorical_columns (t : BaseTable) : list TableColumn :=
  filter (fun c => type_in (datatype c) categorical_types) (columns t).

Definition numeric_columns (t : BaseTable) : list TableColumn :=
  filter (fun c => type_in (datatype c) numeric_types) (columns t).

(** An activity table sorted by its activity column. *)
Definition steps_table : BaseTable := {|
  table_str := "STEPS";
  table_id := "t-4";
  columns := [ {| name := "CASE_ID"; datatype := STRING |};
               {| name := "STEP"; datatype := STRING |};
               {| name := "TS"; datatype := DATETIME |} ];
  class_of := ActivityTable "CASE_ID" "STEP" "TS" (Some "STEP"%string) None
|}.

Definition steps_config : ProcessConfig := {|
  activity_tables := [steps_table];
  case_tables := [];
  other_tables := []
|}.

(** * The bars of the routing overview (one_click_analysis/gui/overview_screen.py)

    The block of [OverviewScreenRoutingDecisions._create_overview_screen]
    that orders the targets for the bar plot. *)

(** [np.argsort]: the indices in the order of their values.  Equal values
    keep the order of their indices here; NumPy fixes that order only for
    its stable sorts, so the properties below speak of distinct values or
    hold for any order of equal ones. *)
Fixpoint insert_index (key : nat -> Z) (i : nat) (sorted : list nat)
    : list nat :=
  match sorted with
  | [] => [i]
  | j :: rest =>
    if key i <? key j then i :: sorted else j :: insert_index key i rest
  end.

Definition argsort (a : list Z) : list nat :=
  fold_left (fun sorted i => insert_index (fun k => nth k a 0) i sorted)
            (seq 0 (length a)) [].

(** [np.flip(np.argsort(np.argsort(num_cases_with_target)))]. *)
Definition sorted_indices (num_cases_with_target : list Z) : list nat :=
  rev (argsort (map Z.of_nat (argsort num_cases_with_target))).

(** The loop [for el in sorted_indices: ..._sorted.append(...[el])] on one
    of the three lists. *)
Definition take_in_order {A : Type} (d : A) (l : list A) (indices : list nat)
    : list A :=
  map (fun el => nth el l d) indices.

(** The three lists handed to the bar plot: targets, cases and durations. *)
Definition routing_bars {A B : Type} (da : A) (db : B)
    (target_activities : list A) (num_cases_with_target : list Z)
    (avg_case_durations : list B) : list A * list Z * list B :=
  let indices := sorted_indices num_cases_with_target in
  (take_in_order da target_activities indices,
   take_in_order 0 num_cases_with_target indices,
   take_in_order db avg_case_durations indices).

(** From the largest to the smallest. *)
Fixpoint descending (l : list Z) : bool :=
  match l with
  | a :: ((b :: _) as rest) => (b <=? a) && descending rest
  | _ => true
  end.

(** * Properties *)

(** ** Lists *)

Section ListFacts.
Context {A : Type}.

Lemma length_zero_eqb (l : list A) : (length l =? 0)%nat = true <-> l = [].
Proof.
  destruct l; simpl; split; intro H; try reflexivity; discriminate.
Qed.

Lemma nonempty_snoc (l : list A) :
  l <> [] -> exists l' a, l = l' ++ [a].
Proof.
  intro H. destruct (exists_last H) as [l' [a E]]. eauto.
Qed.

Lemma skipn_snoc (k : nat) (l : list A) (a : A) :
  (k <= length l)%nat -> skipn k (l ++ [a]) = skipn k l ++ [a].
Proof.
  intro H. rewrite skipn_app.
  replace (k - length l)%nat with 0%nat by lia. reflexivity.
Qed.

Lemma In_skipn (k : nat) (l : list A) (a : A) : In a (skipn k l) -> In a l.
Proof.
  intro H. rewrite <- (firstn_skipn k l). apply in_or_app. now right.
Qed.

Lemma In_firstn (k : nat) (l : list A) (a : A) : In a (firstn k l) -> In a l.
Proof.
  intro H. rewrite <- (firstn_skipn k l). apply in_or_app. now left.
Qed.
End ListFacts.

(** ** choose_extra_bins *)

Lemma half_succ (n : nat) : (S n / 2 = n - n / 2)%nat.
Proof.
  pose proof (Nat.div_mod_eq n 2). pose proof (Nat.div_mod_eq (S n) 2).
  pose proof (Nat.mod_upper_bound n 2). pose proof (Nat.mod_upper_bound (S n) 2).
  lia.
Qed.

Lemma nil_or_snoc {A : Type} (l : list A) :
  l = [] \/ exists l' a, l = l' ++ [a].
Proof.
  destruct l as [|b l]; [now left | right].
  apply nonempty_snoc. discriminate.
Qed.

Lemma length_snoc {A : Type} (l : list A) (a : A) :
  length (l ++ [a]) = S (length l).
Proof. rewrite length_app. simpl. lia. Qed.

Ltac halves n :=
  pose proof (half_succ n);
  pose proof (Nat.div_mod_eq n 2); pose proof (Nat.mod_upper_bound n 2).

Ltac share_arith n :=
  unfold lower_share, upper_share, first_share, second_share;
  halves n; simpl length; lia.

(** The indexing [potential_lowers[-1]] and [potential_uppers[0]] of the
    loop body never falls on an empty list, so no [IndexError] is modelled
    and [no_bin] is never read. *)
Lemma picks_are_defined (pl pu : list bin) (take_from_upper : bool) :
  (length pl =? 0)%nat && (length pu =? 0)%nat = false ->
  if takes_lower pl pu take_from_upper then pl <> [] else pu <> [].
Proof.
  unfold takes_lower.
  destruct pl as [|l pl], pu as [|u pu], take_from_upper; cbn;
    intro H; discriminate.
Qed.

(** The loop takes a suffix of the lower pool and a prefix of the upper
    pool, of the sizes [lower_share] and [upper_share]. *)
Ltac guards :=
  cbn [length Nat.eqb Nat.ltb Nat.leb andb orb negb hd tl app].

Lemma choose_loop_spec (n : nat) :
  forall pl pu el eu tfu,
    choose_loop n pl pu el eu tfu =
    (skipn (length pl - lower_share n tfu (length pl) (length pu)) pl ++ el,
     eu ++ firstn (upper_share n tfu (length pl) (length pu)) pu).
Proof.
  induction n as [|n IH]; intros pl pu el eu tfu.
  - assert (Hl : lower_share 0 tfu (length pl) (length pu) = 0%nat)
      by (destruct tfu; share_arith 0%nat).
    assert (Hu : upper_share 0 tfu (length pl) (length pu) = 0%nat)
      by (destruct tfu; share_arith 0%nat).
    rewrite Hl, Hu, Nat.sub_0_r, skipn_all. simpl. now rewrite app_nil_r.
  - cbn [choose_loop]. unfold takes_lower.
    destruct (nil_or_snoc pl) as [-> | (rl & x & ->)].
    + destruct pu as [|u pu'].
      * simpl.
        assert (Hu : upper_share (S n) tfu 0 0 = 0%nat)
          by (destruct tfu; share_arith n).
        rewrite Hu. simpl. now rewrite app_nil_r.
      * guards. rewrite IH. simpl length.
        assert (Hu : upper_share (S n) tfu 0 (S (length pu')) =
                     S (upper_share n false 0 (length pu')))
          by (destruct tfu; share_arith n).
        rewrite Hu. simpl. now rewrite <- app_assoc.
    + rewrite length_snoc, removelast_last, last_last.
      destruct pu as [|u pu'].
      * guards. rewrite IH. simpl length.
        assert (Hl : lower_share (S n) tfu (S (length rl)) 0 =
                     S (lower_share n true (length rl) 0))
          by (destruct tfu; share_arith n).
        assert (Hu : upper_share (S n) tfu (S (length rl)) 0 = 0%nat)
          by (destruct tfu; share_arith n).
        assert (Hk : (lower_share n true (length rl) 0 <= length rl)%nat)
          by share_arith n.
        rewrite Hl, Hu. simpl firstn.
        replace (S (length rl) - S (lower_share n true (length rl) 0))%nat
          with (length rl - lower_share n true (length rl) 0)%nat by lia.
        rewrite skipn_snoc by lia. simpl. now rewrite <- app_assoc.
      * destruct tfu; guards; rewrite IH; simpl length.
        -- rewrite length_snoc.
           assert (Hl : lower_share (S n) true (S (length rl)) (S (length pu')) =
                        lower_share n false (S (length rl)) (length pu'))
             by share_arith n.
           assert (Hu : upper_share (S n) true (S (length rl)) (S (length pu')) =
                        S (upper_share n false (S (length rl)) (length pu')))
             by share_arith n.
           rewrite Hl, Hu. simpl. now rewrite <- app_assoc.
        -- assert (Hl : lower_share (S n) false (S (length rl)) (S (length pu')) =
                        S (lower_share n true (length rl) (S (length pu'))))
             by share_arith n.
           assert (Hu : upper_share (S n) false (S (length rl)) (S (length pu')) =
                        upper_share n true (length rl) (S (length pu')))
             by share_arith n.
           assert (Hk : (lower_share n true (length rl) (S (length pu'))
                         <= length rl)%nat) by share_arith n.
           rewrite Hl, Hu.
           replace (S (length rl) -
                    S (lower_share n true (length rl) (S (length pu'))))%nat
             with (length rl -
                   lower_share n true (length rl) (S (length pu')))%nat by lia.
           rewrite skipn_snoc by lia. simpl. now rewrite <- app_assoc.
Qed.

Lemma choose_extra_bins_spec (pl pu : list bin) (num_bins : Z) :
  let n := Z.to_nat num_bins in
  choose_extra_bins pl pu num_bins =
  (skipn (length pl - second_share n (length pl) (length pu)) pl,
   firstn (first_share n (length pu) (length pl)) pu).
Proof.
  intro n. unfold choose_extra_bins.
  destruct (length (pl ++ pu) =? 0)%nat eqn:E.
  - apply length_zero_eqb in E. apply app_eq_nil in E. destruct E as [-> ->].
    cbn [length]. now rewrite skipn_nil, firstn_nil.
  - fold n. rewrite choose_loop_spec. unfold lower_share, upper_share.
    now rewrite app_nil_r.
Qed.

Lemma choose_extra_bins_lengths (pl pu : list bin) (num_bins : Z) :
  let n := Z.to_nat num_bins in
  length (fst (choose_extra_bins pl pu num_bins)) =
    second_share n (length pl) (length pu) /\
  length (snd (choose_extra_bins pl pu num_bins)) =
    first_share n (length pu) (length pl).
Proof.
  intro n. rewrite choose_extra_bins_spec. fold n. cbn [fst snd].
  rewrite length_skipn, length_firstn.
  unfold first_share, second_share. lia.
Qed.

Lemma shares_total (n lowers uppers : nat) :
  (second_share n lowers uppers + first_share n uppers lowers =
   Nat.min n (lowers + uppers))%nat.
Proof. share_arith n. Qed.

Lemma ceil_half_nat (num_bins : Z) :
  0 <= num_bins ->
  (num_bins + 1) / 2 = Z.of_nat (Z.to_nat num_bins - Z.to_nat num_bins / 2).
Proof.
  intro H. rewrite Nat2Z.inj_sub.
  2:{ pose proof (Nat.div_mod_eq (Z.to_nat num_bins) 2). lia. }
  rewrite Nat2Z.inj_div, Z2Nat.id by lia. simpl Z.of_nat.
  Z.div_mod_to_equations. lia.
Qed.

Lemma choose_extra_bins_total (pl pu : list bin) (num_bins : Z) :
  Z.of_nat (length (fst (choose_extra_bins pl pu num_bins)) +
            length (snd (choose_extra_bins pl pu num_bins))) =
  Z.min (Z.max num_bins 0) (Z.of_nat (length pl) + Z.of_nat (length pu)).
Proof.
  destruct (choose_extra_bins_lengths pl pu num_bins) as [Hl Hu].
  rewrite Hl, Hu, shares_total. lia.
Qed.

Lemma choose_extra_bins_incl (pl pu : list bin) (num_bins : Z) :
  incl (fst (choose_extra_bins pl pu num_bins)) pl /\
  incl (snd (choose_extra_bins pl pu num_bins)) pu.
Proof.
  rewrite choose_extra_bins_spec. cbn [fst snd]. split; intros b.
  - apply In_skipn.
  - apply In_firstn.
Qed.

(** C7: [choose_extra_bins] alternates between the pools, the upper pool
    first: of [num_bins] picks the upper pool gives the larger half and the
    lower pool the smaller one; a pool that runs out leaves every remaining
    pick to the other; the picking stops after [num_bins] picks or when both
    pools are empty.  With at least ceil(num_bins / 2) candidates in each
    pool and [num_bins >= 0], the upper picks are the lower picks or one
    more. *)
Theorem choose_extra_bins_alternates (pl pu : list bin) (num_bins : Z) :
  let n := Z.to_nat num_bins in
  let lowers := fst (choose_extra_bins pl pu num_bins) in
  let uppers := snd (choose_extra_bins pl pu num_bins) in
  length uppers = Nat.min (length pu) (Nat.max (n - n / 2) (n - length pl)) /\
  length lowers = Nat.min (length pl) (Nat.max (n / 2) (n - length pu)) /\
  (length lowers + length uppers = Nat.min n (length pl + length pu))%nat /\
  (0 <= num_bins ->
   (num_bins + 1) / 2 <= Z.of_nat (length pl) ->
   (num_bins + 1) / 2 <= Z.of_nat (length pu) ->
   length uppers = (n - n / 2)%nat /\ length lowers = (n / 2)%nat /\
   (length lowers <= length uppers <= length lowers + 1)%nat).
Proof.
  intros n lowers uppers.
  destruct (choose_extra_bins_lengths pl pu num_bins) as [Hl Hu].
  pose proof (ceil_half_nat num_bins) as Hc.
  fold n lowers in Hl. fold n uppers in Hu. fold n in Hc.
  unfold first_share in Hu. unfold second_share in Hl.
  clearbody n lowers uppers.
  split; [exact Hu|]. split; [exact Hl|]. split.
  - rewrite Hl, Hu. apply shares_total.
  - intros Hnb Hpl Hpu. rewrite Hc in Hpl, Hpu by assumption.
    halves n. lia.
Qed.

Lemma choose_extra_bins_alternates_witness :
  0 <= 3 /\
  (3 + 1) / 2 <= Z.of_nat (length two_lowers) /\
  (3 + 1) / 2 <= Z.of_nat (length two_uppers) /\
  choose_extra_bins two_lowers two_uppers 3 = ([(1, 2)], [(7, 8); (9, 10)]) /\
  (length (fst (choose_extra_bins two_lowers two_uppers 3))
   <= length (snd (choose_extra_bins two_lowers two_uppers 3))
   <= length (fst (choose_extra_bins two_lowers two_uppers 3)) + 1)%nat.
Proof.
  split; [lia|]. split; [vm_compute; discriminate|].
  split; [vm_compute; discriminate|]. split; [reflexivity|].
  apply (choose_extra_bins_alternates two_lowers two_uppers 3).
  - lia.
  - vm_compute; discriminate.
  - vm_compute; discriminate.
Defined.

(** C10: the two lists returned by [choose_extra_bins] hold together
    min(max(num_bins, 0), len(potential_lowers) + len(potential_uppers))
    bins; the lower ones come from [potential_lowers], the upper ones from
    [potential_uppers], of which they are a prefix. *)
Theorem choose_extra_bins_picks (pl pu : list bin) (num_bins : Z) :
  let lowers := fst (choose_extra_bins pl pu num_bins) in
  let uppers := snd (choose_extra_bins pl pu num_bins) in
  Z.of_nat (length lowers + length uppers) =
    Z.min (Z.max num_bins 0) (Z.of_nat (length pl) + Z.of_nat (length pu)) /\
  (forall b, In b lowers -> In b pl) /\
  (forall b, In b uppers -> In b pu) /\
  (exists k, uppers = firstn k pu).
Proof.
  intros lowers uppers.
  destruct (choose_extra_bins_incl pl pu num_bins) as [Hl Hu].
  split; [apply choose_extra_bins_total|].
  split; [exact Hl|]. split; [exact Hu|].
  unfold uppers. rewrite choose_extra_bins_spec. cbn [snd].
  eexists. reflexivity.
Qed.

(** ** get_potential_extra_bins *)

(** The loop keeps, for each side, the rounds whose candidate stays strictly
    inside the range, in the order of the rounds. *)
Lemma get_potential_extra_bins_spec
    (lower_end upper_end bin_width num_bins min_val max_val : Z) :
  get_potential_extra_bins
    lower_end upper_end bin_width num_bins min_val max_val =
  (map (lower_candidate lower_end bin_width)
       (filter (fun i => min_val <? lower_end - i * bin_width)
               (range1 num_bins)),
   map (upper_candidate upper_end bin_width)
       (filter (fun i => upper_end + i * bin_width <? max_val)
               (range1 num_bins))).
Proof.
  unfold get_potential_extra_bins.
  set (step := fun (acc : list bin * list bin) (i : Z) => _).
  assert (G : forall l pl pu,
             fold_left step l (pl, pu) =
             (pl ++ map (lower_candidate lower_end bin_width)
                      (filter (fun i => min_val <? lower_end - i * bin_width) l),
              pu ++ map (upper_candidate upper_end bin_width)
                      (filter (fun i => upper_end + i * bin_width <? max_val) l))).
  { induction l as [|i l IH]; intros pl pu.
    - simpl. now rewrite !app_nil_r.
    - cbn [fold_left filter]. unfold step at 2.
      destruct (min_val <? lower_end - i * bin_width);
        destruct (upper_end + i * bin_width <? max_val);
        rewrite IH; cbn [map]; unfold lower_candidate, upper_candidate;
        rewrite <- ?app_assoc; reflexivity. }
  apply G.
Qed.

(** ** The quantiles and the bin width *)

Lemma Qeq_bool_false (x y : Q) : ~ (x == y)%Q -> Qeq_bool x y = false.
Proof.
  intro H. destruct (Qeq_bool x y) eqn:E; [|reflexivity].
  now apply Qeq_bool_eq in E.
Qed.

(** The four labels of the quantile frame differ from one another, except
    that the two percentiles are both one half for [num_bins = 1]. *)
Lemma percentile_labels_differ (num_bins : Z) :
  num_bins <> 0 -> num_bins <> 1 ->
  let lo := Qinv (inject_Z (2 * num_bins)) in
  let hi := (1 - lo)%Q in
  Qeq_bool lo hi = false /\ Qeq_bool hi lo = false /\
  Qeq_bool lo 0 = false /\ Qeq_bool lo 1 = false /\
  Qeq_bool hi 0 = false /\ Qeq_bool hi 1 = false /\
  Qeq_bool 0 lo = false /\ Qeq_bool 1 lo = false /\
  Qeq_bool 0 hi = false /\ Qeq_bool 1 hi = false.
Proof.
  intros H0 H1 lo hi. subst lo hi.
  destruct num_bins as [|p|p]; [easy| |];
    cbn [Qinv inject_Z Qnum Qden Z.mul Pos.mul];
    repeat split; apply Qeq_bool_false;
    unfold Qeq, Qminus, Qplus, Qopp; cbn [Qnum Qden Z.opp];
    rewrite ?Pos2Z.inj_mul; nia.
Qed.

(** Outside [num_bins = 0] and [num_bins = 1] each of the four labels names
    one column, and the four reads give the platform's four answers. *)
Lemma binning_parameters_reads
    (fp : FeatureProcessor) (num_bins : Z) (time_unit : string) :
  num_bins <> 0 -> num_bins <> 1 ->
  binning_parameters fp num_bins time_unit =
  (let mn := quantile_pql fp time_unit 0%Q in
   let mx := quantile_pql fp time_unit 1%Q in
   let lo := quantile_pql fp time_unit (lower_percentile num_bins) in
   let hi := quantile_pql fp time_unit (upper_percentile num_bins) in
   width <- initial_bin_width lo hi num_bins ;;
   Ok {| min_val := mn; max_val := mx; lower_end := lo; upper_end := hi;
         bin_width := corrected_bin_width mn mx num_bins width |}).
Proof.
  intros H0 H1. unfold binning_parameters, py_true_div_one.
  destruct (Z.eqb_spec (2 * num_bins) 0) as [E|_]; [lia|].
  cbn [bind].
  destruct (percentile_labels_differ num_bins H0 H1)
    as (A1 & A2 & A3 & A4 & A5 & A6 & A7 & A8 & A9 & A10).
  unfold first_values, get_quantiles_case_duration_pql.
  cbn [map filter fst snd].
  rewrite A1, A2, A3, A4, A5, A6, A7, A8, A9, A10, !Qeq_bool_refl.
  change (Qeq_bool 1 0) with false. change (Qeq_bool 0 1) with false.
  cbn [map filter fst snd np_scalar bind].
  reflexivity.
Qed.

(** No exception outside [num_bins = 0], [num_bins = 1] and
    [num_bins = 2]. *)
Lemma binning_parameters_ok
    (fp : FeatureProcessor) (num_bins : Z) (time_unit : string) :
  num_bins <> 0 -> num_bins <> 1 -> num_bins <> 2 ->
  binning_parameters fp num_bins time_unit =
  Ok (parameters_of fp num_bins time_unit).
Proof.
  intros H0 H1 H2. rewrite binning_parameters_reads by assumption.
  unfold initial_bin_width, int_ceil_true_div.
  destruct (Z.eqb_spec (num_bins - 2) 0) as [E|_]; [lia|].
  reflexivity.
Qed.

Lemma distribution_bins_ok
    (fp : FeatureProcessor) (num_bins : Z) (time_unit : string) :
  num_bins <> 0 -> num_bins <> 1 -> num_bins <> 2 ->
  distribution_bins fp num_bins time_unit =
  Ok (assemble_bins (parameters_of fp num_bins time_unit) num_bins).
Proof.
  intros H0 H1 H2. unfold distribution_bins.
  now rewrite binning_parameters_ok.
Qed.

(** A data frame row per bin: no bin is [(None, None)]. *)
Lemma get_num_cases_closed
    (fp : FeatureProcessor) (bins : list bin) (time_unit : string) :
  get_num_cases_with_durations fp (map closed bins) time_unit =
  map (fun b => (closed b, count_pql fp time_unit (Between (fst b) (snd b))))
      bins.
Proof.
  unfold get_num_cases_with_durations.
  induction bins as [|b bins IH]; [reflexivity|].
  cbn [map flat_map]. rewrite IH. reflexivity.
Qed.

Lemma compute_ok
    (fp : FeatureProcessor) (num_bins : Z) (time_unit : string) :
  num_bins <> 0 -> num_bins <> 1 -> num_bins <> 2 ->
  compute_binned_distribution_case_durations fp num_bins time_unit =
  Ok (map (fun b => (closed b,
                     count_pql fp time_unit (Between (fst b) (snd b))))
          (assemble_bins (parameters_of fp num_bins time_unit) num_bins)).
Proof.
  intros H0 H1 H2. unfold compute_binned_distribution_case_durations.
  rewrite distribution_bins_ok by assumption. cbn [bind].
  now rewrite get_num_cases_closed.
Qed.

(** With three bins or more the core never has a negative number of bins. *)
Lemma bins_within_nonneg
    (fp : FeatureProcessor) (num_bins : Z) (time_unit : string) :
  3 <= num_bins -> 0 <= bins_within (parameters_of fp num_bins time_unit).
Proof.
  intro H. unfold bins_within, parameters_of, np_floor_div. cbn.
  set (lo := quantile_pql fp time_unit (lower_percentile num_bins)).
  set (hi := quantile_pql fp time_unit (upper_percentile num_bins)).
  set (mn := quantile_pql fp time_unit 0%Q).
  set (mx := quantile_pql fp time_unit 1%Q).
  clearbody lo hi mn mx.
  unfold corrected_bin_width.
  set (w := - (- (hi - lo) / (num_bins - 2))).
  assert (Hw : (0 < w -> 0 < hi - lo) /\ (w < 0 -> hi - lo + 1 <= 0)).
  { subst w. split; intro; Z.div_mod_to_equations; nia. }
  destruct Hw as [Hpos Hneg].
  destruct (np_true_div_lt (mx - mn + 1) w num_bins && (1 <? w)) eqn:E.
  - apply andb_prop in E. destruct E as [_ E]. apply Z.ltb_lt in E.
    destruct (Z.eqb_spec (w - 1) 0); [lia|].
    apply Z.div_pos; lia.
  - destruct (Z.eqb_spec w 0); [lia|].
    destruct (Z_lt_le_dec w 0).
    + rewrite <- Z.div_opp_opp by lia. apply Z.div_pos; lia.
    + apply Z.div_pos; lia.
Qed.

(** ** The assembled list *)

(** The list is the lower outlier bin, the chosen lower bins, the core, the
    chosen upper bins and the upper outlier bin. *)
Lemma assemble_bins_eq (p : binning_inputs) (num_bins : Z) :
  assemble_bins p num_bins =
  [(min_val p, min_inner_bin p num_bins - 1)] ++
  fst (extra_bins p num_bins) ++ core_bins p ++ snd (extra_bins p num_bins) ++
  [(max_inner_bin p num_bins + 1, max_val p)].
Proof.
  unfold assemble_bins, min_inner_bin, max_inner_bin, extra_bins.
  destruct (potential_extra_bins p num_bins) as [pl pu]. cbn [fst snd].
  destruct (choose_extra_bins pl pu (diff_bins p num_bins)) as [el eu].
  reflexivity.
Qed.

Lemma assemble_bins_shape (p : binning_inputs) (num_bins : Z) :
  exists lo_high hi_low,
    assemble_bins p num_bins =
    [(min_val p, lo_high)] ++ fst (extra_bins p num_bins) ++ core_bins p ++
    snd (extra_bins p num_bins) ++ [(hi_low, max_val p)].
Proof. rewrite assemble_bins_eq. eauto. Qed.

Lemma length_core_bins (p : binning_inputs) :
  length (core_bins p) = Z.to_nat (bins_within p).
Proof.
  unfold core_bins, range0. now rewrite !length_map, length_seq.
Qed.

Lemma length_assemble_bins (p : binning_inputs) (num_bins : Z) :
  let pools := potential_extra_bins p num_bins in
  Z.of_nat (length (assemble_bins p num_bins)) =
  2 + Z.max (bins_within p) 0 +
  Z.min (Z.max (diff_bins p num_bins) 0)
        (Z.of_nat (length (fst pools)) + Z.of_nat (length (snd pools))).
Proof.
  intro pools.
  destruct (assemble_bins_shape p num_bins) as (x & y & ->).
  pose proof (choose_extra_bins_total (fst pools) (snd pools)
                (diff_bins p num_bins)) as Hn.
  unfold extra_bins. fold pools.
  rewrite !length_app, length_core_bins. cbn [length]. lia.
Qed.

(** C1, as the code has it: with [num_bins >= 3] the call returns a bin list
    of 2 + bins_within + (extra bins chosen) entries; that is [num_bins]
    entries exactly when the core has at most [num_bins - 2] bins and the
    two candidate pools hold at least [diff_bins] candidates together. *)
Theorem bin_count_is_num_bins_iff
    (fp : FeatureProcessor) (num_bins : Z) (time_unit : string) :
  3 <= num_bins ->
  exists p bins,
    binning_parameters fp num_bins time_unit = Ok p /\
    distribution_bins fp num_bins time_unit = Ok bins /\
    let pools := potential_extra_bins p num_bins in
    let candidates :=
      Z.of_nat (length (fst pools)) + Z.of_nat (length (snd pools)) in
    Z.of_nat (length bins) =
      2 + bins_within p + Z.min (Z.max (diff_bins p num_bins) 0) candidates /\
    (Z.of_nat (length bins) = num_bins <->
     bins_within p <= num_bins - 2 /\ diff_bins p num_bins <= candidates).
Proof.
  intro H.
  exists (parameters_of fp num_bins time_unit).
  exists (assemble_bins (parameters_of fp num_bins time_unit) num_bins).
  split; [apply binning_parameters_ok; lia|].
  split; [apply distribution_bins_ok; lia|].
  intros pools candidates.
  pose proof (bins_within_nonneg fp num_bins time_unit H) as Hb.
  pose proof (length_assemble_bins
                (parameters_of fp num_bins time_unit) num_bins) as Hl.
  cbv zeta in Hl. fold pools in Hl. fold candidates in Hl.
  unfold diff_bins in *.
  split; [lia|]. lia.
Qed.

Lemma bin_count_is_num_bins_iff_witness :
  3 <= 10 /\
  exists bins,
    distribution_bins fp_1_100 10 DAYS = Ok bins /\ length bins = 10%nat.
Proof.
  split; [lia|].
  destruct (bin_count_is_num_bins_iff fp_1_100 10 DAYS)
    as (p & bins & Hp & Hbins & _ & Hiff); [lia|].
  exists bins. split; [exact Hbins|].
  vm_compute in Hp. injection Hp as <-.
  apply Nat2Z.inj. apply Hiff. vm_compute. split; discriminate.
Defined.

(** C1, as stated, fails on the sample 1..18: eleven bins for
    [num_bins = 10]. *)
Lemma bin_count_overshoots :
  exists bins,
    distribution_bins fp_1_18 10 DAYS = Ok bins /\ length bins <> 10%nat.
Proof.
  eexists. split; [vm_compute; reflexivity|]. vm_compute. discriminate.
Qed.

(** C6: with [num_bins >= 3] the call returns a table whose first range
    starts at the 0th-percentile value (the sample minimum) and whose last
    range ends at the 100th-percentile value (the sample maximum). *)
Theorem outlier_bins_reach_extremes
    (fp : FeatureProcessor) (num_bins : Z) (time_unit : string) :
  3 <= num_bins ->
  exists first_high last_low first_cases last_cases inner,
    compute_binned_distribution_case_durations fp num_bins time_unit =
    Ok ([((Some (quantile_pql fp time_unit 0%Q), Some first_high), first_cases)]
        ++ inner ++
        [((Some last_low, Some (quantile_pql fp time_unit 1%Q)), last_cases)]).
Proof.
  intro H. rewrite compute_ok by lia.
  destruct (assemble_bins_shape (parameters_of fp num_bins time_unit) num_bins)
    as (x & y & ->).
  rewrite !map_app. cbn [map closed fst snd parameters_of min_val max_val].
  do 4 eexists. exists (map (fun b => (closed b,
                     count_pql fp time_unit (Between (fst b) (snd b))))
     (fst (extra_bins (parameters_of fp num_bins time_unit) num_bins) ++
      core_bins (parameters_of fp num_bins time_unit) ++
      snd (extra_bins (parameters_of fp num_bins time_unit) num_bins))).
  rewrite !map_app, <- !app_assoc. reflexivity.
Qed.

Lemma outlier_bins_reach_extremes_witness :
  3 <= 10 /\
  exists first_high last_low first_cases last_cases inner,
    compute_binned_distribution_case_durations fp_1_100 10 DAYS =
    Ok ([((Some 1, Some first_high), first_cases)] ++ inner ++
        [((Some last_low, Some 100), last_cases)]).
Proof.
  split; [lia|].
  apply (outlier_bins_reach_extremes fp_1_100 10 DAYS). lia.
Defined.

(** ** The sample 1..100 *)

Lemma fp_1_100_quantiles :
  quantile_pql fp_1_100 DAYS (1 # 20) = 5 /\
  quantile_pql fp_1_100 DAYS (19 # 20) = 95 /\
  quantile_pql fp_1_100 DAYS 0 = 1 /\
  quantile_pql fp_1_100 DAYS 1 = 100 /\
  counts_accurately fp_1_100 sample_1_100.
Proof. repeat split. Qed.

(** C8: on the sample 1..100 with [num_bins = 10] and [time_unit = DAYS] the
    call returns ten rows, whose ranges are contiguous and cover [1, 100] and
    whose counts add up to 100. *)
Theorem histogram_of_1_100 :
  exists rows,
    compute_binned_distribution_case_durations fp_1_100 10 DAYS = Ok rows /\
    length rows = 10%nat /\
    map fst rows = map closed bins_1_100 /\
    contiguous bins_1_100 = true /\
    fst (hd no_bin bins_1_100) = 1 /\
    snd (last bins_1_100 no_bin) = 100 /\
    map snd rows = map (fun b => sample_count sample_1_100
                                   (Between (fst b) (snd b))) bins_1_100 /\
    total_cases rows = Z.of_nat (length sample_1_100) /\
    total_cases rows = 100.
Proof.
  eexists. split; [vm_compute; reflexivity|].
  repeat split.
Qed.

(** ** Fewer than three bins *)

(** [np_scalar] fails with a [TypeError] only. *)
Lemma np_scalar_raises (values : list Z) (e : exn) :
  np_scalar values = Raise e -> e = TypeError.
Proof.
  destruct values as [|v [|w values]]; cbn; congruence.
Qed.

(** No path of the function ends in [InvalidConfiguration]. *)
Lemma never_invalid_configuration
    (fp : FeatureProcessor) (num_bins : Z) (time_unit : string) :
  compute_binned_distribution_case_durations fp num_bins time_unit <>
  Raise InvalidConfiguration.
Proof.
  unfold compute_binned_distribution_case_durations, distribution_bins,
    binning_parameters, py_true_div_one, initial_bin_width, int_ceil_true_div.
  destruct (2 * num_bins =? 0); [discriminate|]. cbn [bind].
  repeat match goal with
  | |- context [np_scalar ?values] =>
      let E := fresh "E" in
      destruct (np_scalar values) as [?|?] eqn:E;
        [|apply np_scalar_raises in E; subst; discriminate]; cbn [bind]
  end.
  destruct (num_bins - 2 =? 0); [|discriminate].
  destruct (_ - _ =? 0); discriminate.
Qed.

(** With one bin both percentiles are one half: two columns of the quantile
    frame carry the label of the lower percentile. *)
Lemma one_bin_shares_a_label (fp : FeatureProcessor) (time_unit : string) :
  first_values
    (get_quantiles_case_duration_pql fp
       [lower_percentile 1; upper_percentile 1; 0%Q; 1%Q] time_unit)
    (lower_percentile 1) =
  [quantile_pql fp time_unit (lower_percentile 1);
   quantile_pql fp time_unit (upper_percentile 1)].
Proof. reflexivity. Qed.

(** C4, as the code has it: no configuration check exists and no call ends
    in [InvalidConfiguration].  Below three bins the call fails for
    [num_bins = 0] with the [ZeroDivisionError] of [1 / (2 * num_bins)], for
    [num_bins = 1] with the [TypeError] of [int] on the two values read
    under the label both percentiles share, and for [num_bins = 2] with the
    error of [int] on the nan or the infinity of the division by
    [num_bins - 2]. *)
Theorem small_num_bins_unchecked
    (fp : FeatureProcessor) (num_bins : Z) (time_unit : string) :
  num_bins < 3 ->
  compute_binned_distribution_case_durations fp num_bins time_unit <>
    Raise InvalidConfiguration /\
  (num_bins = 0 ->
   compute_binned_distribution_case_durations fp num_bins time_unit =
   Raise ZeroDivisionError) /\
  (num_bins = 1 ->
   compute_binned_distribution_case_durations fp num_bins time_unit =
   Raise TypeError) /\
  (num_bins = 2 ->
   compute_binned_distribution_case_durations fp num_bins time_unit =
   Raise (if quantile_pql fp time_unit (upper_percentile 2) -
             quantile_pql fp time_unit (lower_percentile 2) =? 0
          then ValueError else OverflowError)).
Proof.
  intros _. split; [apply never_invalid_configuration|]. split; [|split].
  - intros ->. reflexivity.
  - intros ->. reflexivity.
  - intros ->.
    unfold compute_binned_distribution_case_durations, distribution_bins.
    rewrite binning_parameters_reads by lia.
    unfold initial_bin_width, int_ceil_true_div. cbv zeta.
    change (2 - 2 =? 0) with true.
    now destruct (_ - _ =? 0).
Qed.

Lemma small_num_bins_unchecked_witness :
  1 < 3 /\
  compute_binned_distribution_case_durations fp_concentrated 0 DAYS =
    Raise ZeroDivisionError /\
  compute_binned_distribution_case_durations fp_concentrated 1 DAYS =
    Raise TypeError /\
  compute_binned_distribution_case_durations fp_concentrated 2 DAYS =
    Raise OverflowError.
Proof.
  split; [lia|]. split; [|split].
  - apply (small_num_bins_unchecked fp_concentrated 0 DAYS); [lia|reflexivity].
  - apply (small_num_bins_unchecked fp_concentrated 1 DAYS); [lia|reflexivity].
  - apply (small_num_bins_unchecked fp_concentrated 2 DAYS); [lia|reflexivity].
Defined.

(** C4, as stated, fails for [num_bins = 0]: the call ends in the
    [ZeroDivisionError] of the first division, before any query. *)
Lemma zero_bins_requested_divides_by_zero :
  0 < 3 /\
  compute_binned_distribution_case_durations fp_concentrated 0 DAYS =
    Raise ZeroDivisionError /\
  compute_binned_distribution_case_durations fp_concentrated 0 DAYS <>
    Raise InvalidConfiguration.
Proof. split; [lia|]. split; [reflexivity | discriminate]. Qed.

(** ** A sample whose values are all equal *)

Section ConstantFunctions.
Context {A B : Type}.

Lemma filter_all_false (f : A -> bool) (l : list A) :
  (forall x, f x = false) -> filter f l = [].
Proof.
  intro H. induction l as [|a l IH]; [reflexivity|].
  simpl. now rewrite H.
Qed.



End ConstantFunctions.

Lemma length_range1 (n : Z) : length (range1 n) = Z.to_nat n.
Proof. unfold range1. now rewrite length_map, length_seq. Qed.








(** ** The order of the lower extra bins *)

(** [get_potential_extra_bins] lists the lower candidates from the core
    outwards, so downwards; [choose_extra_bins] takes the last one and puts
    it in front, as if the list went upwards. *)
Lemma concentrated_pools :
  get_potential_extra_bins 50 51 1 6 0 100 =
  ([(49, 49); (48, 48); (47, 47); (46, 46); (45, 45); (44, 44)],
   [(52, 52); (53, 53); (54, 54); (55, 55); (56, 56); (57, 57)]) /\
  choose_extra_bins
    [(49, 49); (48, 48); (47, 47); (46, 46); (45, 45); (44, 44)]
    [(52, 52); (53, 53); (54, 54); (55, 55); (56, 56); (57, 57)] 6 =
  ([(46, 46); (45, 45); (44, 44)], [(52, 52); (53, 53); (54, 54)]).
Proof. split; reflexivity. Qed.

(** C2 at a failing input: for the concentrated sample and [num_bins = 10]
    the three lower extra bins come out as 46, 45, 44; the list is neither
    ascending nor contiguous, and 47..49 lie in no bin. *)
Theorem lower_extras_out_of_order :
  distribution_bins fp_concentrated 10 DAYS = Ok bins_concentrated /\
  contiguous bins_concentrated = false /\
  nth 1 bins_concentrated no_bin = (46, 46) /\
  nth 2 bins_concentrated no_bin = (45, 45) /\
  forallb (fun b => negb ((fst b <=? 47) && (47 <=? snd b)))
          bins_concentrated = true.
Proof. repeat split. Qed.

Lemma fp_concentrated_accurate :
  counts_accurately fp_concentrated sample_concentrated /\
  length sample_concentrated = 100%nat.
Proof. split; [intros tu q|]; reflexivity. Qed.

(** C5 at the same input: the platform counts accurately, the sample has 100
    cases and the counts of the returned rows add up to 99; the case of 47
    days is in no bin. *)
Theorem counts_miss_a_case :
  exists rows,
    compute_binned_distribution_case_durations fp_concentrated 10 DAYS =
      Ok rows /\
    map snd rows = [1; 0; 0; 0; 48; 49; 0; 0; 0; 1] /\
    total_cases rows = 99 /\
    Z.of_nat (length sample_concentrated) = 100.
Proof.
  eexists. split; [vm_compute; reflexivity|]. repeat split.
Qed.

(** ** What holds apart from the order of the lower extra bins *)

Lemma links_app (l1 l2 : list bin) :
  forall s m n, links s l1 m -> links m l2 n -> links s (l1 ++ l2) n.
Proof.
  induction l1 as [|b l1 IH]; intros s m n H1 H2.
  - simpl in H1. now subst.
  - destruct H1 as [Hb H1]. split; [exact Hb|]. now apply (IH _ m).
Qed.

(** Linked bins between the two outlier bins make a contiguous list. *)
Lemma links_contiguous (l : list bin) :
  forall x s n y,
    links s l n -> contiguous ([(x, s - 1)] ++ l ++ [(n, y)]) = true.
Proof.
  induction l as [|b l IH]; intros x s n y H.
  - simpl in H. subst. cbn. rewrite andb_true_r. apply Z.eqb_eq. lia.
  - destruct H as [Hb H]. destruct b as [lo hi]. cbn [fst snd] in *. subst lo.
    specialize (IH s (hi + 1) n y H).
    replace (hi + 1 - 1) with hi in IH by lia.
    cbn [app contiguous fst snd] in *. rewrite IH.
    rewrite andb_true_r. apply Z.eqb_eq. lia.
Qed.

Lemma rounds_succ (k : nat) : rounds (S k) = rounds k ++ [Z.of_nat (S k)].
Proof. unfold rounds. now rewrite seq_S, map_app. Qed.

Lemma range1_rounds (n : Z) : range1 n = rounds (Z.to_nat n).
Proof. reflexivity. Qed.

Lemma In_rounds (k : nat) (i : Z) : In i (rounds k) -> 0 < i <= Z.of_nat k.
Proof.
  unfold rounds. rewrite in_map_iff. intros (j & <- & Hj).
  apply in_seq in Hj. lia.
Qed.

(** A test that can only turn false as the rounds go on keeps a prefix of
    the rounds. *)
Lemma filter_rounds_prefix (f : Z -> bool) (k : nat) :
  (forall i j, 0 < i <= j -> f j = true -> f i = true) ->
  exists k', (k' <= k)%nat /\ filter f (rounds k) = rounds k'.
Proof.
  intro Hf. induction k as [|k (k' & Hk' & IH)].
  - exists 0%nat. split; [lia | reflexivity].
  - rewrite rounds_succ, filter_app. cbn [filter].
    destruct (f (Z.of_nat (S k))) eqn:E.
    + exists (S k). split; [lia|]. rewrite rounds_succ. f_equal.
      apply forallb_filter_id. apply forallb_forall. intros i Hi.
      apply In_rounds in Hi. apply (Hf i (Z.of_nat (S k))); [lia | exact E].
    + exists k'. split; [lia|]. now rewrite IH, app_nil_r.
Qed.

Lemma firstn_of_seq (c : nat) :
  forall start len, firstn c (seq start len) = seq start (Nat.min c len).
Proof.
  induction c as [|c IH]; intros start len; [reflexivity|].
  destruct len as [|len]; [reflexivity|].
  cbn [seq firstn Nat.min]. now rewrite IH.
Qed.

Lemma firstn_rounds {B : Type} (g : Z -> B) (c k : nat) :
  firstn c (map g (rounds k)) = map g (rounds (Nat.min c k)).
Proof. unfold rounds. now rewrite !firstn_map, firstn_of_seq. Qed.

Lemma links_upper_candidates (u w : Z) (k : nat) :
  links (u + 1) (map (upper_candidate u w) (rounds k))
        (u + Z.of_nat k * w + 1).
Proof.
  induction k as [|k IH].
  - simpl. lia.
  - rewrite rounds_succ, map_app.
    apply (links_app _ _ _ _ _ IH). cbn [map links upper_candidate fst snd].
    split; lia.
Qed.

Lemma last_upper_candidates (u w : Z) (k : nat) :
  (0 < k)%nat ->
  snd (last (map (upper_candidate u w) (rounds k)) no_bin) =
  u + Z.of_nat k * w.
Proof.
  destruct k as [|k]; [lia|]. intros _.
  rewrite rounds_succ, map_app. cbn [map]. now rewrite last_last.
Qed.

Lemma links_core_bins (p : binning_inputs) :
  0 <= bins_within p ->
  links (lower_end p) (core_bins p) (upper_end_within p + 1).
Proof.
  intro H. unfold core_bins, upper_end_within, range0.
  rewrite <- (Z2Nat.id (bins_within p)) at 2 by assumption.
  generalize (Z.to_nat (bins_within p)) as k.
  induction k as [|k IH].
  - simpl. lia.
  - rewrite seq_S, !map_app.
    apply (links_app _ _ _ _ _ IH). cbn [map links fst snd Nat.add]. split; lia.
Qed.

Lemma potential_extra_bins_rounds (p : binning_inputs) (num_bins : Z) :
  0 <= bin_width p ->
  exists kl ku,
    potential_extra_bins p num_bins =
    (map (lower_candidate (lower_end p) (bin_width p)) (rounds kl),
     map (upper_candidate (upper_end_within p) (bin_width p)) (rounds ku)).
Proof.
  intro Hw. unfold potential_extra_bins.
  rewrite get_potential_extra_bins_spec, range1_rounds.
  destruct (filter_rounds_prefix
              (fun i => min_val p <? lower_end p - i * bin_width p)
              (Z.to_nat (diff_bins p num_bins))) as (kl & _ & ->).
  { intros i j Hij Hj. apply Z.ltb_lt in Hj. apply Z.ltb_lt. nia. }
  destruct (filter_rounds_prefix
              (fun i => upper_end_within p + i * bin_width p <? max_val p)
              (Z.to_nat (diff_bins p num_bins))) as (ku & _ & ->).
  { intros i j Hij Hj. apply Z.ltb_lt in Hj. apply Z.ltb_lt. nia. }
  eauto.
Qed.

Lemma extra_bins_spec (p : binning_inputs) (num_bins : Z) :
  exists cl cu,
    extra_bins p num_bins =
    (skipn cl (fst (potential_extra_bins p num_bins)),
     firstn cu (snd (potential_extra_bins p num_bins))).
Proof.
  unfold extra_bins. rewrite choose_extra_bins_spec. cbv zeta. eauto.
Qed.

(** The chosen upper bins continue the core up to [max_inner_bin]. *)
Lemma links_upper_extras (p : binning_inputs) (num_bins : Z) :
  0 <= bin_width p ->
  links (upper_end_within p + 1) (snd (extra_bins p num_bins))
        (max_inner_bin p num_bins + 1).
Proof.
  intro Hw. unfold max_inner_bin.
  destruct (extra_bins_spec p num_bins) as (cl & cu & ->).
  destruct (potential_extra_bins_rounds p num_bins Hw) as (kl & ku & ->).
  cbn [fst snd]. rewrite firstn_rounds.
  set (k := Nat.min cu ku). rewrite length_map. unfold rounds at 2.
  rewrite length_map, length_seq.
  destruct k as [|k].
  - simpl. reflexivity.
  - change (0 <? S k)%nat with true. cbv iota.
    rewrite last_upper_candidates by lia.
    apply links_upper_candidates.
Qed.

(** With at most one lower candidate, the chosen lower bins lead from
    [min_inner_bin] to the core. *)
Lemma links_lower_extras (p : binning_inputs) (num_bins : Z) :
  0 <= bin_width p ->
  (length (fst (potential_extra_bins p num_bins)) <= 1)%nat ->
  links (min_inner_bin p num_bins) (fst (extra_bins p num_bins)) (lower_end p).
Proof.
  intros Hw. unfold min_inner_bin.
  destruct (extra_bins_spec p num_bins) as (cl & cu & ->).
  destruct (potential_extra_bins_rounds p num_bins Hw) as (kl & ku & ->).
  cbn [fst snd]. unfold rounds at 1. rewrite !length_map, length_seq.
  intro Hkl.
  destruct kl as [|[|kl]]; [| |lia].
  - cbn [rounds seq map]. rewrite skipn_nil. reflexivity.
  - cbn [rounds seq map]. destruct cl as [|cl].
    + cbn. split; lia.
    + cbn [skipn]. rewrite skipn_nil. reflexivity.
Qed.

(** The bins are contiguous whenever [get_potential_extra_bins] finds at
    most one lower candidate. *)
Lemma contiguous_with_one_lower_candidate (p : binning_inputs) (num_bins : Z) :
  0 <= bin_width p -> 0 <= bins_within p ->
  (length (fst (potential_extra_bins p num_bins)) <= 1)%nat ->
  contiguous (assemble_bins p num_bins) = true.
Proof.
  intros Hw Hb Hpl. rewrite assemble_bins_eq.
  rewrite (app_assoc (core_bins p)), (app_assoc (fst (extra_bins p num_bins))).
  apply links_contiguous.
  apply (links_app _ _ _ (lower_end p)); [now apply links_lower_extras|].
  apply (links_app _ _ _ (upper_end_within p + 1));
    [now apply links_core_bins | now apply links_upper_extras].
Qed.

Lemma bin_width_nonneg
    (fp : FeatureProcessor) (num_bins : Z) (time_unit : string) :
  3 <= num_bins ->
  lower_end (parameters_of fp num_bins time_unit)
    <= upper_end (parameters_of fp num_bins time_unit) ->
  0 <= bin_width (parameters_of fp num_bins time_unit).
Proof.
  intros H. unfold parameters_of. cbn [lower_end upper_end bin_width].
  set (lo := quantile_pql fp time_unit (lower_percentile num_bins)).
  set (hi := quantile_pql fp time_unit (upper_percentile num_bins)).
  intro Hle. unfold corrected_bin_width.
  set (w := - (- (hi - lo) / (num_bins - 2))).
  assert (Hw : 0 <= w) by (subst w; Z.div_mod_to_equations; nia).
  destruct (_ && (1 <? w)) eqn:E; [|exact Hw].
  apply andb_prop in E. destruct E as [_ E]. apply Z.ltb_lt in E. lia.
Qed.

(** For [num_bins >= 3] and quantiles in order, the returned bins are
    contiguous unless the lower pool holds two candidates or more. *)
Lemma distribution_bins_contiguous
    (fp : FeatureProcessor) (num_bins : Z) (time_unit : string) :
  3 <= num_bins ->
  quantile_pql fp time_unit (lower_percentile num_bins)
    <= quantile_pql fp time_unit (upper_percentile num_bins) ->
  (length (fst (potential_extra_bins
                  (parameters_of fp num_bins time_unit) num_bins)) <= 1)%nat ->
  exists bins,
    distribution_bins fp num_bins time_unit = Ok bins /\
    contiguous bins = true.
Proof.
  intros H Hle Hpl. eexists. split; [apply distribution_bins_ok; lia|].
  apply contiguous_with_one_lower_candidate.
  - now apply bin_width_nonneg.
  - now apply bins_within_nonneg.
  - exact Hpl.
Qed.

(** *** Counts *)

Lemma sample_count_split (sample : list Z) (a b c : Z) :
  a <= b + 1 -> b <= c ->
  sample_count sample (Between a b) + sample_count sample (Between (b + 1) c) =
  sample_count sample (Between a c).
Proof.
  intros Hab Hbc. unfold sample_count.
  induction sample as [|x sample IH]; [reflexivity|].
  cbn [filter satisfies].
  destruct (Z.leb_spec a x), (Z.leb_spec x b), (Z.leb_spec (b + 1) x),
    (Z.leb_spec x c); cbn [andb length]; lia.
Qed.

Lemma sample_count_empty (sample : list Z) (a : Z) :
  sample_count sample (Between a (a - 1)) = 0.
Proof.
  unfold sample_count. rewrite filter_all_false; [reflexivity|].
  intro x. cbn. destruct (Z.leb_spec a x), (Z.leb_spec x (a - 1)); cbn; lia.
Qed.

Lemma sample_count_all (sample : list Z) (a b : Z) :
  (forall x, In x sample -> a <= x <= b) ->
  sample_count sample (Between a b) = Z.of_nat (length sample).
Proof.
  intro H. unfold sample_count. rewrite forallb_filter_id; [reflexivity|].
  apply forallb_forall. intros x Hx. apply H in Hx. cbn.
  apply andb_true_intro. split; apply Z.leb_le; lia.
Qed.

(** Linked, well-ordered bins hold the cases between their two ends. *)
Lemma links_cases (sample : list Z) (l : list bin) :
  forall s n,
    links s l n -> Forall well_ordered l ->
    s <= n /\ cases_in sample l = sample_count sample (Between s (n - 1)).
Proof.
  induction l as [|b l IH]; intros s n H Hwo.
  - simpl in H. subst. split; [lia|]. cbn. now rewrite sample_count_empty.
  - destruct H as [Hb H]. inversion Hwo as [|? ? Hwb Hwl]; subst.
    destruct (IH _ _ H Hwl) as [Hle Hsum]. unfold well_ordered in Hwb.
    split; [lia|]. cbn [cases_in fold_right]. fold (cases_in sample l).
    rewrite Hsum. apply sample_count_split; lia.
Qed.

Lemma total_cases_accurate
    (fp : FeatureProcessor) (sample : list Z) (time_unit : string)
    (bins : list bin) :
  counts_accurately fp sample ->
  total_cases
    (map (fun b => (closed b,
                    count_pql fp time_unit (Between (fst b) (snd b)))) bins) =
  cases_in sample bins.
Proof.
  intro H. induction bins as [|b bins IH]; [reflexivity|].
  cbn [map total_cases cases_in fold_right snd]. rewrite H. f_equal. exact IH.
Qed.

(** *** The bins are well ordered *)

Lemma well_ordered_candidates (e w : Z) (l : list Z) :
  0 <= w ->
  Forall well_ordered (map (lower_candidate e w) l) /\
  Forall well_ordered (map (upper_candidate e w) l).
Proof.
  intro Hw. split; apply Forall_map, Forall_forall; intros i _;
    unfold well_ordered, lower_candidate, upper_candidate; cbn [fst snd]; lia.
Qed.

Lemma well_ordered_core_bins (p : binning_inputs) :
  0 <= bin_width p -> Forall well_ordered (core_bins p).
Proof.
  intro Hw. unfold core_bins. apply Forall_map, Forall_forall. intros i _.
  unfold well_ordered. cbn [fst snd]. lia.
Qed.

(** Every candidate lies strictly inside the range of the sample. *)
Lemma potential_extra_bins_inside (p : binning_inputs) (num_bins : Z) :
  (forall b, In b (fst (potential_extra_bins p num_bins)) ->
             min_val p < fst b) /\
  (forall b, In b (snd (potential_extra_bins p num_bins)) ->
             snd b < max_val p).
Proof.
  unfold potential_extra_bins. rewrite get_potential_extra_bins_spec.
  cbn [fst snd]. split; intros b Hb; apply in_map_iff in Hb;
    destruct Hb as (i & <- & Hi); apply filter_In in Hi;
    destruct Hi as [_ Hi]; apply Z.ltb_lt in Hi; exact Hi.
Qed.

Lemma well_ordered_extra_bins (p : binning_inputs) (num_bins : Z) :
  0 <= bin_width p ->
  Forall well_ordered (fst (extra_bins p num_bins)) /\
  Forall well_ordered (snd (extra_bins p num_bins)).
Proof.
  intro Hw.
  destruct (choose_extra_bins_incl
              (fst (potential_extra_bins p num_bins))
              (snd (potential_extra_bins p num_bins))
              (diff_bins p num_bins)) as [Hl Hu].
  fold (extra_bins p num_bins) in Hl, Hu.
  destruct (potential_extra_bins_rounds p num_bins Hw) as (kl & ku & E).
  rewrite E in Hl, Hu. cbn [fst snd] in Hl, Hu.
  split.
  - apply (incl_Forall Hl). now apply well_ordered_candidates.
  - apply (incl_Forall Hu). now apply well_ordered_candidates.
Qed.

Lemma min_inner_bin_inside (p : binning_inputs) (num_bins : Z) :
  min_val p <= lower_end p -> min_val p <= min_inner_bin p num_bins.
Proof.
  intro H. unfold min_inner_bin.
  destruct (choose_extra_bins_incl
              (fst (potential_extra_bins p num_bins))
              (snd (potential_extra_bins p num_bins))
              (diff_bins p num_bins)) as [Hl _].
  fold (extra_bins p num_bins) in Hl.
  destruct (fst (extra_bins p num_bins)) as [|b el]; [exact H|].
  cbn [length hd]. change (0 <? S (length el))%nat with true. cbv iota.
  apply Z.lt_le_incl.
  apply (proj1 (potential_extra_bins_inside p num_bins)).
  apply Hl. now left.
Qed.

Lemma upper_end_within_inside (p : binning_inputs) :
  0 <= bin_width p -> lower_end p <= upper_end p ->
  upper_end_within p <= upper_end p.
Proof.
  intros Hw Hle. unfold upper_end_within, bins_within, np_floor_div.
  destruct (Z.eqb_spec (bin_width p) 0) as [E|E]; [lia|].
  pose proof (Z.mul_div_le (upper_end p - lower_end p + 1) (bin_width p)).
  lia.
Qed.

Lemma max_inner_bin_inside (p : binning_inputs) (num_bins : Z) :
  0 <= bin_width p -> lower_end p <= upper_end p ->
  upper_end p <= max_val p ->
  max_inner_bin p num_bins <= max_val p.
Proof.
  intros Hw Hle Hmax. unfold max_inner_bin.
  destruct (choose_extra_bins_incl
              (fst (potential_extra_bins p num_bins))
              (snd (potential_extra_bins p num_bins))
              (diff_bins p num_bins)) as [_ Hu].
  fold (extra_bins p num_bins) in Hu.
  destruct (nil_or_snoc (snd (extra_bins p num_bins)))
    as [E | (eu & b & E)]; rewrite E in *.
  - cbn. pose proof (upper_end_within_inside p Hw Hle). lia.
  - rewrite length_snoc, last_last.
    change (0 <? S (length eu))%nat with true. cbv iota.
    apply Z.lt_le_incl.
    apply (proj2 (potential_extra_bins_inside p num_bins)).
    apply Hu. apply in_or_app. right. now left.
Qed.

(** The whole list leads from [min_val] to [max_val] when the lower pool
    holds at most one candidate. *)
Lemma links_assemble_bins (p : binning_inputs) (num_bins : Z) :
  0 <= bin_width p -> 0 <= bins_within p ->
  (length (fst (potential_extra_bins p num_bins)) <= 1)%nat ->
  links (min_val p) (assemble_bins p num_bins) (max_val p + 1).
Proof.
  intros Hw Hb Hpl. rewrite assemble_bins_eq.
  apply (links_app _ _ _ (min_inner_bin p num_bins)).
  { cbn. split; [reflexivity | lia]. }
  apply (links_app _ _ _ (lower_end p)); [now apply links_lower_extras|].
  apply (links_app _ _ _ (upper_end_within p + 1));
    [now apply links_core_bins|].
  apply (links_app _ _ _ (max_inner_bin p num_bins + 1));
    [now apply links_upper_extras|].
  cbn. split; reflexivity.
Qed.

Lemma well_ordered_assemble_bins (p : binning_inputs) (num_bins : Z) :
  0 <= bin_width p ->
  min_val p <= lower_end p <= upper_end p -> upper_end p <= max_val p ->
  Forall well_ordered (assemble_bins p num_bins).
Proof.
  intros Hw [Hmin Hle] Hmax. rewrite assemble_bins_eq.
  destruct (well_ordered_extra_bins p num_bins Hw) as [Hl Hu].
  pose proof (min_inner_bin_inside p num_bins Hmin).
  pose proof (max_inner_bin_inside p num_bins Hw Hle Hmax).
  repeat (apply Forall_app; split); try assumption.
  - constructor; [|constructor]. unfold well_ordered. cbn [fst snd]. lia.
  - now apply well_ordered_core_bins.
  - constructor; [|constructor]. unfold well_ordered. cbn [fst snd]. lia.
Qed.

(** With an accurate platform, quantiles in order and a sample between its
    minimum and maximum, the counts add up to the sample size unless the
    lower pool holds two candidates or more. *)
Lemma total_cases_is_sample_size
    (fp : FeatureProcessor) (sample : list Z) (num_bins : Z)
    (time_unit : string) :
  3 <= num_bins ->
  counts_accurately fp sample ->
  quantile_pql fp time_unit 0%Q
    <= quantile_pql fp time_unit (lower_percentile num_bins)
    <= quantile_pql fp time_unit (upper_percentile num_bins) ->
  quantile_pql fp time_unit (upper_percentile num_bins)
    <= quantile_pql fp time_unit 1%Q ->
  (forall x, In x sample ->
     quantile_pql fp time_unit 0%Q <= x <= quantile_pql fp time_unit 1%Q) ->
  (length (fst (potential_extra_bins
                  (parameters_of fp num_bins time_unit) num_bins)) <= 1)%nat ->
  exists rows,
    compute_binned_distribution_case_durations fp num_bins time_unit =
      Ok rows /\
    total_cases rows = Z.of_nat (length sample).
Proof.
  intros H Hacc Hq Hmax Hsample Hpl.
  eexists. split; [apply compute_ok; lia|].
  rewrite (total_cases_accurate fp sample) by assumption.
  set (p := parameters_of fp num_bins time_unit) in *.
  assert (Hw : 0 <= bin_width p) by (apply bin_width_nonneg; [lia | apply Hq]).
  assert (Hb : 0 <= bins_within p) by now apply bins_within_nonneg.
  destruct (links_cases sample (assemble_bins p num_bins)
              (min_val p) (max_val p + 1)) as [_ ->].
  - now apply links_assemble_bins.
  - now apply well_ordered_assemble_bins.
  - replace (max_val p + 1 - 1) with (max_val p) by lia.
    now apply sample_count_all.
Qed.

(** *** The defect in general *)

Lemma contiguous_inside (l1 l2 : list bin) (b b' : bin) :
  contiguous (l1 ++ [b] ++ b' :: l2) = true -> snd b + 1 = fst b'.
Proof.
  induction l1 as [|a l1 IH]; intro H.
  - cbn [app contiguous] in H. apply andb_prop in H. destruct H as [H _].
    now apply Z.eqb_eq.
  - apply IH. cbn [app] in *.
    destruct (l1 ++ b :: b' :: l2) as [|c l] eqn:E.
    + destruct l1; discriminate.
    + cbn [contiguous] in H. apply andb_prop in H. now destruct H.
Qed.

(** What follows the chosen lower bins starts at [lower_end]. *)
Lemma after_lower_extras (p : binning_inputs) (num_bins : Z) :
  0 <= bin_width p -> 0 <= bins_within p ->
  exists b rest,
    core_bins p ++ snd (extra_bins p num_bins) ++
    [(max_inner_bin p num_bins + 1, max_val p)] = b :: rest /\
    fst b = lower_end p.
Proof.
  intros Hw Hb.
  assert (H : links (lower_end p)
                (core_bins p ++ snd (extra_bins p num_bins) ++
                 [(max_inner_bin p num_bins + 1, max_val p)])
                (max_val p + 1)).
  { apply (links_app _ _ _ (upper_end_within p + 1));
      [now apply links_core_bins|].
    apply (links_app _ _ _ (max_inner_bin p num_bins + 1));
      [now apply links_upper_extras|].
    cbn. split; reflexivity. }
  destruct (core_bins p ++ snd (extra_bins p num_bins) ++
            [(max_inner_bin p num_bins + 1, max_val p)]) as [|b rest] eqn:E.
  - apply app_eq_nil in E. destruct E as [_ E].
    apply app_eq_nil in E. destruct E as [_ E]. discriminate.
  - exists b, rest. split; [reflexivity|]. now destruct H.
Qed.

(** With a positive width, two lower candidates or more and a lower bin
    chosen, the last chosen lower bin is the outermost candidate and does
    not reach the core: the list is not contiguous. *)
Lemma lower_disorder_breaks_contiguity (p : binning_inputs) (num_bins : Z) :
  0 < bin_width p -> 0 <= bins_within p ->
  (2 <= length (fst (potential_extra_bins p num_bins)))%nat ->
  fst (extra_bins p num_bins) <> [] ->
  contiguous (assemble_bins p num_bins) = false.
Proof.
  intros Hw Hb Hpl Hel.
  assert (Hw0 : 0 <= bin_width p) by lia.
  destruct (after_lower_extras p num_bins Hw0 Hb) as (b' & rest & Erest & Hb').
  destruct (contiguous (assemble_bins p num_bins)) eqn:C; [|reflexivity].
  exfalso. rewrite assemble_bins_eq, Erest in C.
  destruct (extra_bins_spec p num_bins) as (cl & cu & E).
  destruct (potential_extra_bins_rounds p num_bins Hw0) as (kl & ku & Ep).
  rewrite E in Hel. rewrite E in C. rewrite Ep in *. cbn [fst snd] in *.
  unfold rounds in Hpl at 1. rewrite !length_map, length_seq in Hpl.
  destruct kl as [|kl]; [lia|].
  rewrite rounds_succ, map_app in C, Hel. cbn [map] in C, Hel.
  assert (Hcl : (cl <= length (map (lower_candidate (lower_end p) (bin_width p))
                                   (rounds kl)))%nat).
  { destruct (Nat.le_gt_cases cl
                (length (map (lower_candidate (lower_end p) (bin_width p))
                             (rounds kl)))) as [H|H]; [exact H|].
    exfalso. apply Hel. apply skipn_all2. rewrite length_snoc. lia. }
  rewrite skipn_snoc in C by exact Hcl.
  rewrite <- app_assoc in C. rewrite app_assoc in C.
  apply contiguous_inside in C.
  unfold lower_candidate in C. cbn [snd] in C. nia.
Qed.

(** * Further properties of the binning functions *)

(** ** get_potential_extra_bins *)

Lemma length_filter_le {A : Type} (f : A -> bool) (l : list A) :
  (length (filter f l) <= length l)%nat.
Proof.
  induction l as [|a l IH]; [apply Nat.le_refl|].
  cbn [filter]. destruct (f a); cbn [length]; lia.
Qed.

(** X1: each pool of [get_potential_extra_bins] holds at most [num_bins]
    candidates (none for [num_bins <= 0]); every candidate spans [bin_width]
    values; the lower candidates start above [min_val] and the upper ones
    end below [max_val]. *)
Theorem potential_extra_bins_bounds
    (lower_end upper_end bin_width num_bins min_val max_val : Z) :
  let pools :=
    get_potential_extra_bins
      lower_end upper_end bin_width num_bins min_val max_val in
  Z.of_nat (length (fst pools)) <= Z.max num_bins 0 /\
  Z.of_nat (length (snd pools)) <= Z.max num_bins 0 /\
  (forall b, In b (fst pools) -> min_val < fst b /\ bin_size b = bin_width) /\
  (forall b, In b (snd pools) -> snd b < max_val /\ bin_size b = bin_width).
Proof.
  intro pools. subst pools. rewrite get_potential_extra_bins_spec.
  cbn [fst snd]. rewrite !length_map.
  pose proof (length_filter_le
                (fun i => min_val <? lower_end - i * bin_width)
                (range1 num_bins)) as Hl.
  pose proof (length_filter_le
                (fun i => upper_end + i * bin_width <? max_val)
                (range1 num_bins)) as Hu.
  rewrite length_range1 in Hl, Hu.
  split; [lia|]. split; [lia|].
  split; intros b Hb; apply in_map_iff in Hb; destruct Hb as (i & <- & Hi);
    apply filter_In in Hi; destruct Hi as [_ Hi]; apply Z.ltb_lt in Hi;
    unfold bin_size, lower_candidate, upper_candidate; cbn [fst snd];
    split; lia.
Qed.

Lemma filter_rounds_upto (f : Z -> bool) (c : Z) (k : nat) :
  (forall i, 0 < i -> f i = (i <=? c)) ->
  filter f (rounds k) = rounds (Nat.min k (Z.to_nat c)).
Proof.
  intro Hf. induction k as [|k IH]; [reflexivity|].
  rewrite rounds_succ, filter_app, IH. cbn [filter].
  rewrite Hf by lia.
  destruct (Z.leb_spec (Z.of_nat (S k)) c) as [H|H].
  - replace (Nat.min k (Z.to_nat c)) with k by lia.
    replace (Nat.min (S k) (Z.to_nat c)) with (S k) by lia.
    now rewrite rounds_succ.
  - replace (Nat.min (S k) (Z.to_nat c)) with (Nat.min k (Z.to_nat c)) by lia.
    now rewrite app_nil_r.
Qed.

(** X2: with a positive bin width the pools are the candidates of the
    rounds 1..k, the nearest to the core first, where k is the number of
    whole bins that fit strictly between the core and the extreme value,
    capped by [num_bins]. *)
Theorem potential_extra_bins_closed_form
    (lower_end upper_end bin_width num_bins min_val max_val : Z) :
  0 < bin_width ->
  get_potential_extra_bins
    lower_end upper_end bin_width num_bins min_val max_val =
  (map (lower_candidate lower_end bin_width)
       (rounds (Z.to_nat
                  (Z.min num_bins ((lower_end - min_val - 1) / bin_width)))),
   map (upper_candidate upper_end bin_width)
       (rounds (Z.to_nat
                  (Z.min num_bins ((max_val - upper_end - 1) / bin_width))))).
Proof.
  intro Hw. rewrite get_potential_extra_bins_spec, range1_rounds.
  rewrite (filter_rounds_upto _ ((lower_end - min_val - 1) / bin_width)).
  2:{ intros i Hi.
      destruct (Z.ltb_spec min_val (lower_end - i * bin_width)) as [H|H];
        symmetry; [apply Z.leb_le | apply Z.leb_gt].
      - apply Z.div_le_lower_bound; [lia | nia].
      - apply Z.div_lt_upper_bound; [lia | nia]. }
  rewrite (filter_rounds_upto _ ((max_val - upper_end - 1) / bin_width)).
  2:{ intros i Hi.
      destruct (Z.ltb_spec (upper_end + i * bin_width) max_val) as [H|H];
        symmetry; [apply Z.leb_le | apply Z.leb_gt].
      - apply Z.div_le_lower_bound; [lia | nia].
      - apply Z.div_lt_upper_bound; [lia | nia]. }
  rewrite <- !Z2Nat.inj_min. reflexivity.
Qed.

Lemma potential_extra_bins_closed_form_witness :
  0 < 11 /\
  get_potential_extra_bins 40 60 11 5 1 100 =
  ([(29, 39); (18, 28); (7, 17)], [(61, 71); (72, 82); (83, 93)]).
Proof.
  split; [lia|].
  rewrite (potential_extra_bins_closed_form 40 60 11 5 1 100) by lia.
  reflexivity.
Defined.

(** ** get_num_cases_with_durations *)

(** X3: the data frame has one row per interval other than [(None, None)],
    in the order of the intervals; on an accurate platform an interval open
    below counts the cases up to its high bound, one open above counts the
    cases from its low bound, and the two halves [(None, a)] and
    [(a + 1, None)] count every case once. *)
Theorem num_cases_rows
    (fp : FeatureProcessor) (sample : list Z)
    (duration_intervals : list duration_interval) (time_unit : string) (a : Z) :
  counts_accurately fp sample ->
  map fst (get_num_cases_with_durations fp duration_intervals time_unit) =
    filter (fun d => negb (is_unbounded d)) duration_intervals /\
  get_num_cases_with_durations fp [(None, None)] time_unit = [] /\
  get_num_cases_with_durations fp [(None, Some a); (Some (a + 1), None)]
    time_unit =
    [((None, Some a), sample_count sample (AtMost a));
     ((Some (a + 1), None), sample_count sample (AtLeast (a + 1)))] /\
  sample_count sample (AtMost a) + sample_count sample (AtLeast (a + 1)) =
    Z.of_nat (length sample).
Proof.
  intro Hacc. split; [|split; [reflexivity|split]].
  - unfold get_num_cases_with_durations.
    induction duration_intervals as [|[[lo|] [hi|]] l IH];
      cbn [flat_map filter is_unbounded negb map app fst]; rewrite ?IH;
      reflexivity.
  - cbn. now rewrite !Hacc.
  - clear Hacc. unfold sample_count.
    induction sample as [|x sample IH]; [reflexivity|].
    cbn [filter satisfies length] in *.
    destruct (Z.leb_spec x a), (Z.leb_spec (a + 1) x); cbn [length]; lia.
Qed.

Lemma num_cases_rows_witness :
  counts_accurately fp_1_100 sample_1_100 /\
  map fst (get_num_cases_with_durations fp_1_100
             [(None, Some 10); (None, None); (Some 11, None)] DAYS) =
    [(None, Some 10); (Some 11, None)] /\
  sample_count sample_1_100 (AtMost 10) +
  sample_count sample_1_100 (AtLeast (10 + 1)) = 100.
Proof.
  assert (H : counts_accurately fp_1_100 sample_1_100)
    by (intros tu q; reflexivity).
  split; [exact H|].
  destruct (num_cases_rows fp_1_100 sample_1_100
              [(None, Some 10); (None, None); (Some 11, None)] DAYS 10 H)
    as (Hrows & _ & _ & Hsum).
  split; [exact Hrows | exact Hsum].
Defined.

(** ** choose_extra_bins *)

(** X4: the lists [choose_extra_bins] returns, exactly: the last picks of
    [potential_lowers] in their order in that list, and the first picks of
    [potential_uppers]; nothing at all for [num_bins <= 0]; with one pool
    empty, the first or the last [num_bins] candidates of the other. *)
Theorem choose_extra_bins_exact (pl pu : list bin) (num_bins : Z) :
  let n := Z.to_nat num_bins in
  choose_extra_bins pl pu num_bins =
    (skipn (length pl - Nat.min (length pl)
                          (Nat.max (n / 2) (n - length pu))) pl,
     firstn (Nat.min (length pu) (Nat.max (n - n / 2) (n - length pl))) pu) /\
  choose_extra_bins pl pu (Z.min num_bins 0) = ([], []) /\
  choose_extra_bins [] pu num_bins = ([], firstn n pu) /\
  choose_extra_bins pl [] num_bins = (skipn (length pl - n) pl, []).
Proof.
  intro n. split; [apply choose_extra_bins_spec|].
  split; [|split].
  - rewrite choose_extra_bins_spec. cbv zeta.
    replace (Z.to_nat (Z.min num_bins 0)) with 0%nat by lia.
    unfold first_share, second_share. cbn [Nat.div Nat.divmod fst Nat.sub Nat.max].
    rewrite !Nat.min_0_r, Nat.sub_0_r, skipn_all. reflexivity.
  - rewrite choose_extra_bins_spec. cbv zeta. fold n.
    unfold first_share, second_share. cbn [length]. rewrite skipn_nil.
    f_equal. halves n.
    destruct (Nat.le_gt_cases (length pu) n) as [H'|H'].
    + replace (Nat.min _ _) with (length pu) by lia.
      rewrite !firstn_all2 by lia. reflexivity.
    + replace (Nat.min _ _) with n by lia. reflexivity.
  - rewrite choose_extra_bins_spec. cbv zeta. fold n.
    unfold first_share, second_share. cbn [length]. rewrite firstn_nil.
    f_equal. halves n.
    destruct (Nat.le_gt_cases (length pl) n) as [H'|H'].
    + replace (length pl - Nat.min _ _)%nat with 0%nat by lia.
      replace (length pl - n)%nat with 0%nat by lia. reflexivity.
    + replace (Nat.min _ _) with n by lia. reflexivity.
Qed.

(** ** The bin width and the core *)

Lemma ceiling_bounds (a m : Z) :
  0 < m -> m * (- (- a / m) - 1) < a <= m * - (- a / m).
Proof. intro H. Z.div_mod_to_equations. nia. Qed.

Lemma corrected_bin_width_cases (mn mx num_bins w : Z) :
  corrected_bin_width mn mx num_bins w = w \/
  corrected_bin_width mn mx num_bins w = w - 1 /\ 1 < w /\
  mx - mn + 1 < num_bins * w.
Proof.
  unfold corrected_bin_width, np_true_div_lt.
  destruct (Z.ltb_spec 1 w) as [L1|L1];
    [|rewrite andb_false_r; now left].
  destruct (Z.eqb_spec w 0); [lia|].
  destruct (Z.ltb_spec 0 w); [|lia].
  destruct (Z.ltb_spec (mx - mn + 1) (num_bins * w)); cbn [andb];
    [right; repeat split; assumption | now left].
Qed.

Lemma parameters_bin_width
    (fp : FeatureProcessor) (num_bins : Z) (time_unit : string) :
  let p := parameters_of fp num_bins time_unit in
  bin_width p =
  corrected_bin_width (min_val p) (max_val p) num_bins
    (- (- (upper_end p - lower_end p) / (num_bins - 2))).
Proof. reflexivity. Qed.

(** X5: for [num_bins >= 3] and quantiles in order, the bin width is the
    ceiling of (upper_end - lower_end) / (num_bins - 2) or one less, the
    latter only when the whole range holds fewer than [num_bins] bins of the
    ceiling width; it is 0 exactly when the two quantiles are equal, and at
    least 1 otherwise. *)
Theorem bin_width_range
    (fp : FeatureProcessor) (num_bins : Z) (time_unit : string) :
  3 <= num_bins ->
  let p := parameters_of fp num_bins time_unit in
  lower_end p <= upper_end p ->
  exists ceiling,
    initial_bin_width (lower_end p) (upper_end p) num_bins = Ok ceiling /\
    (num_bins - 2) * (ceiling - 1) < upper_end p - lower_end p
      <= (num_bins - 2) * ceiling /\
    (bin_width p = ceiling \/
     bin_width p = ceiling - 1 /\
     max_val p - min_val p + 1 < num_bins * ceiling) /\
    (bin_width p = 0 <-> upper_end p = lower_end p) /\
    (lower_end p < upper_end p -> 1 <= bin_width p).
Proof.
  intros H p Hle.
  exists (- (- (upper_end p - lower_end p) / (num_bins - 2))).
  unfold initial_bin_width, int_ceil_true_div.
  destruct (Z.eqb_spec (num_bins - 2) 0) as [E|_]; [lia|].
  split; [reflexivity|].
  pose proof (parameters_bin_width fp num_bins time_unit) as Hbw.
  cbv zeta in Hbw. fold p in Hbw. rewrite Hbw. clear Hbw.
  set (a := upper_end p - lower_end p) in *.
  set (w := - (- a / (num_bins - 2))).
  assert (Hw : (num_bins - 2) * (w - 1) < a <= (num_bins - 2) * w).
  { subst w. Z.div_mod_to_equations. nia. }
  split; [exact Hw|].
  unfold corrected_bin_width, np_true_div_lt.
  destruct (Z.eqb_spec w 0) as [E0|E0].
  - rewrite andb_comm. replace (1 <? w) with false by (symmetry; apply Z.ltb_ge; lia).
    cbn [andb]. split; [now left|]. split; [|nia]. split; intro; nia.
  - assert (Hpos : 0 < w) by nia.
    replace (0 <? w) with true by (symmetry; apply Z.ltb_lt; lia).
    destruct (Z.ltb_spec (max_val p - min_val p + 1) (num_bins * w)) as [L|L];
      destruct (Z.ltb_spec 1 w) as [L1|L1]; cbn [andb].
    + split; [right; split; [reflexivity | exact L]|].
      split; [split; intro; nia | intro; lia].
    + split; [now left|]. split; [split; intro; nia | intro; lia].
    + split; [now left|]. split; [split; intro; nia | intro; lia].
    + split; [now left|]. split; [split; intro; nia | intro; lia].
Qed.

Lemma bin_width_range_witness :
  3 <= 10 /\
  lower_end (parameters_of fp_1_100 10 DAYS)
    <= upper_end (parameters_of fp_1_100 10 DAYS) /\
  exists ceiling,
    initial_bin_width 5 95 10 = Ok ceiling /\
    (bin_width (parameters_of fp_1_100 10 DAYS) = ceiling \/
     bin_width (parameters_of fp_1_100 10 DAYS) = ceiling - 1 /\
     100 - 1 + 1 < 10 * ceiling).
Proof.
  split; [lia|]. split; [vm_compute; discriminate|].
  destruct (bin_width_range fp_1_100 10 DAYS) as (c & Hc & _ & Hw & _);
    [lia | vm_compute; discriminate |].
  exists c. split; [exact Hc | exact Hw].
Defined.

Lemma In_range0 (n i : Z) : In i (range0 n) -> 0 <= i < n.
Proof.
  unfold range0. rewrite in_map_iff. intros (j & <- & Hj).
  apply in_seq in Hj. lia.
Qed.

(** X6: with a positive bin width and quantiles in order, the core is
    [bins_within] bins of [bin_width] values each, linked from [lower_end]
    on; it ends at [upper_end] or less than one bin width below it. *)
Theorem core_bins_cover (p : binning_inputs) :
  0 < bin_width p -> lower_end p <= upper_end p ->
  Z.of_nat (length (core_bins p)) = bins_within p /\
  links (lower_end p) (core_bins p) (upper_end_within p + 1) /\
  Forall (fun b => bin_size b = bin_width p) (core_bins p) /\
  upper_end_within p <= upper_end p < upper_end_within p + bin_width p.
Proof.
  intros Hw Hle.
  assert (Hb : 0 <= bins_within p).
  { unfold bins_within, np_floor_div.
    destruct (Z.eqb_spec (bin_width p) 0); [lia|]. apply Z.div_pos; lia. }
  split; [rewrite length_core_bins; lia|].
  split; [now apply links_core_bins|]. split.
  - unfold core_bins. apply Forall_map, Forall_forall. intros i _.
    unfold bin_size. cbn [fst snd]. lia.
  - unfold upper_end_within, bins_within, np_floor_div.
    destruct (Z.eqb_spec (bin_width p) 0); [lia|].
    pose proof (Z.mul_div_le (upper_end p - lower_end p + 1) (bin_width p)).
    pose proof (Z.mul_succ_div_gt (upper_end p - lower_end p + 1)
                  (bin_width p)).
    lia.
Qed.

Lemma core_bins_cover_witness :
  0 < bin_width (parameters_of fp_1_100 10 DAYS) /\
  lower_end (parameters_of fp_1_100 10 DAYS)
    <= upper_end (parameters_of fp_1_100 10 DAYS) /\
  Z.of_nat (length (core_bins (parameters_of fp_1_100 10 DAYS))) = 8 /\
  upper_end_within (parameters_of fp_1_100 10 DAYS) = 92.
Proof.
  split; [reflexivity|]. split; [vm_compute; discriminate|].
  destruct (core_bins_cover (parameters_of fp_1_100 10 DAYS))
    as (Hn & _); [reflexivity | vm_compute; discriminate |].
  split; [exact Hn | reflexivity].
Defined.

(** ** The bins stay in the range of the sample *)

Lemma pool_members (p : binning_inputs) (num_bins : Z) :
  (forall b, In b (fst (potential_extra_bins p num_bins)) ->
     exists i, 0 < i /\ b = lower_candidate (lower_end p) (bin_width p) i /\
               min_val p < fst b) /\
  (forall b, In b (snd (potential_extra_bins p num_bins)) ->
     exists i, 0 < i /\ b = upper_candidate (upper_end_within p) (bin_width p) i /\
               snd b < max_val p).
Proof.
  unfold potential_extra_bins. rewrite get_potential_extra_bins_spec.
  cbn [fst snd]. split; intros b Hb; apply in_map_iff in Hb;
    destruct Hb as (i & <- & Hi); apply filter_In in Hi;
    destruct Hi as [Hr Hi]; rewrite range1_rounds in Hr;
    apply In_rounds in Hr; apply Z.ltb_lt in Hi; exists i;
    (split; [lia|]); (split; [reflexivity | exact Hi]).
Qed.

Lemma extra_bins_members (p : binning_inputs) (num_bins : Z) :
  (forall b, In b (fst (extra_bins p num_bins)) ->
     exists i, 0 < i /\ b = lower_candidate (lower_end p) (bin_width p) i /\
               min_val p < fst b) /\
  (forall b, In b (snd (extra_bins p num_bins)) ->
     exists i, 0 < i /\ b = upper_candidate (upper_end_within p) (bin_width p) i /\
               snd b < max_val p).
Proof.
  destruct (choose_extra_bins_incl
              (fst (potential_extra_bins p num_bins))
              (snd (potential_extra_bins p num_bins))
              (diff_bins p num_bins)) as [Hl Hu].
  fold (extra_bins p num_bins) in Hl, Hu.
  destruct (pool_members p num_bins) as [Pl Pu].
  split; intros b Hb; [apply Pl, Hl, Hb | apply Pu, Hu, Hb].
Qed.

Lemma min_inner_bin_below_core (p : binning_inputs) (num_bins : Z) :
  0 <= bin_width p -> min_inner_bin p num_bins <= lower_end p.
Proof.
  intro Hw. unfold min_inner_bin.
  destruct (extra_bins_members p num_bins) as [Hl _].
  destruct (fst (extra_bins p num_bins)) as [|b el]; [cbn; lia|].
  cbn [length hd]. change (0 <? S (length el))%nat with true. cbv iota.
  destruct (Hl b (or_introl eq_refl)) as (i & Hi & -> & _).
  unfold lower_candidate. cbn [fst]. nia.
Qed.

Lemma max_inner_bin_above_core (p : binning_inputs) (num_bins : Z) :
  0 <= bin_width p -> upper_end_within p <= max_inner_bin p num_bins.
Proof.
  intro Hw. unfold max_inner_bin.
  destruct (extra_bins_members p num_bins) as [_ Hu].
  destruct (nil_or_snoc (snd (extra_bins p num_bins)))
    as [E | (eu & b & E)]; rewrite E in *.
  - cbn. lia.
  - rewrite length_snoc, last_last.
    change (0 <? S (length eu))%nat with true. cbv iota.
    destruct (Hu b) as (i & Hi & -> & _).
    { apply in_or_app. right. now left. }
    unfold upper_candidate. cbn [snd]. nia.
Qed.

Lemma upper_end_within_above (p : binning_inputs) :
  0 <= bin_width p -> 0 <= bins_within p ->
  lower_end p <= upper_end_within p + 1.
Proof. intros Hw Hb. unfold upper_end_within. nia. Qed.

(** X7: for [num_bins >= 3] and quantiles in order between the minimum and
    the maximum, every bin of the list starts at [min_val] or above, ends at
    [max_val] or below, and is a range or an empty range: no bin reaches
    outside the sample and none is turned round, whatever the order of the
    bins. *)
Theorem bins_stay_inside
    (fp : FeatureProcessor) (num_bins : Z) (time_unit : string) :
  3 <= num_bins ->
  let p := parameters_of fp num_bins time_unit in
  min_val p <= lower_end p <= upper_end p -> upper_end p <= max_val p ->
  exists bins,
    distribution_bins fp num_bins time_unit = Ok bins /\
    Forall (inside p) bins.
Proof.
  intros H p [Hmin Hle] Hmax.
  exists (assemble_bins p num_bins).
  split; [apply distribution_bins_ok; lia|].
  assert (Hw : 0 <= bin_width p) by (apply bin_width_nonneg; assumption).
  assert (Hb : 0 <= bins_within p) by (apply bins_within_nonneg; assumption).
  pose proof (min_inner_bin_inside p num_bins Hmin).
  pose proof (min_inner_bin_below_core p num_bins Hw).
  pose proof (max_inner_bin_inside p num_bins Hw Hle Hmax).
  pose proof (max_inner_bin_above_core p num_bins Hw).
  pose proof (upper_end_within_inside p Hw Hle).
  pose proof (upper_end_within_above p Hw Hb).
  destruct (extra_bins_members p num_bins) as [Hl Hu].
  rewrite assemble_bins_eq.
  repeat (apply Forall_app; split).
  - constructor; [|constructor]. unfold inside. cbn [fst snd]. lia.
  - apply Forall_forall. intros b Hb'.
    destruct (Hl b Hb') as (i & Hi & -> & Hin).
    unfold inside, lower_candidate in *. cbn [fst snd] in *. nia.
  - unfold core_bins. apply Forall_map, Forall_forall. intros i Hi.
    apply In_range0 in Hi. unfold inside, upper_end_within in *.
    cbn [fst snd]. nia.
  - apply Forall_forall. intros b Hb'.
    destruct (Hu b Hb') as (i & Hi & -> & Hin).
    unfold inside, upper_candidate in *. cbn [fst snd] in *. nia.
  - constructor; [|constructor]. unfold inside. cbn [fst snd]. lia.
Qed.

Lemma bins_stay_inside_witness :
  3 <= 10 /\
  exists bins,
    distribution_bins fp_concentrated 10 DAYS = Ok bins /\
    Forall (inside (parameters_of fp_concentrated 10 DAYS)) bins.
Proof.
  split; [lia|].
  apply (bins_stay_inside fp_concentrated 10 DAYS).
  - lia.
  - vm_compute. split; discriminate.
  - vm_compute. discriminate.
Defined.

(** ** How many bins *)

Lemma bins_within_bound
    (fp : FeatureProcessor) (num_bins : Z) (time_unit : string) :
  3 <= num_bins ->
  let p := parameters_of fp num_bins time_unit in
  lower_end p <= upper_end p ->
  bins_within p <= 2 * (num_bins - 2) + 1.
Proof.
  intros H p Hle.
  pose proof (bin_width_nonneg fp num_bins time_unit H Hle) as Hnn.
  pose proof (parameters_bin_width fp num_bins time_unit) as Hbw.
  cbv zeta in Hbw. fold p in Hbw, Hnn.
  pose proof (ceiling_bounds (upper_end p - lower_end p) (num_bins - 2))
    as Hw.
  set (w := - (- (upper_end p - lower_end p) / (num_bins - 2))) in *.
  unfold bins_within, np_floor_div.
  destruct (Z.eqb_spec (bin_width p) 0) as [E|E]; [lia|].
  apply Z.lt_succ_r. apply Z.div_lt_upper_bound; [lia|].
  destruct (corrected_bin_width_cases (min_val p) (max_val p) num_bins w)
    as [Hc | (Hc & Hc1 & _)]; rewrite Hc in Hbw; rewrite Hbw in *; nia.
Qed.

Lemma assemble_bins_count
    (fp : FeatureProcessor) (num_bins : Z) (time_unit : string) :
  3 <= num_bins ->
  let p := parameters_of fp num_bins time_unit in
  lower_end p <= upper_end p ->
  2 <= Z.of_nat (length (assemble_bins p num_bins)) <= 2 * num_bins - 1.
Proof.
  intros H p Hle.
  pose proof (bins_within_bound fp num_bins time_unit H Hle) as Hub.
  pose proof (bins_within_nonneg fp num_bins time_unit H) as Hlb.
  pose proof (length_assemble_bins p num_bins) as Hlen.
  fold p in Hub, Hlb. cbv zeta in Hlen. unfold diff_bins in Hlen. lia.
Qed.

(** X8: for [num_bins >= 3] and the two quantiles in order, the list has at
    least the two outlier bins and at most 2 * num_bins - 1 bins; it exceeds
    [num_bins] only by core bins, no extra bin being added then. *)
Theorem bin_count_bounds
    (fp : FeatureProcessor) (num_bins : Z) (time_unit : string) :
  3 <= num_bins ->
  let p := parameters_of fp num_bins time_unit in
  lower_end p <= upper_end p ->
  exists bins,
    distribution_bins fp num_bins time_unit = Ok bins /\
    2 <= Z.of_nat (length bins) <= 2 * num_bins - 1 /\
    (num_bins < Z.of_nat (length bins) ->
     extra_bins p num_bins = ([], []) /\
     Z.of_nat (length bins) = 2 + bins_within p).
Proof.
  intros H p Hle.
  exists (assemble_bins p num_bins).
  split; [apply distribution_bins_ok; lia|].
  pose proof (bins_within_bound fp num_bins time_unit H Hle) as Hub.
  pose proof (bins_within_nonneg fp num_bins time_unit H) as Hlb.
  pose proof (length_assemble_bins p num_bins) as Hlen.
  fold p in Hub, Hlb. cbv zeta in Hlen. unfold diff_bins in Hlen.
  split; [lia|]. intro Hover.
  assert (Hd : diff_bins p num_bins <= 0) by (unfold diff_bins; lia).
  split; [|lia].
  unfold extra_bins.
  destruct (choose_extra_bins_lengths
              (fst (potential_extra_bins p num_bins))
              (snd (potential_extra_bins p num_bins))
              (diff_bins p num_bins)) as [Hl Hu].
  replace (Z.to_nat (diff_bins p num_bins)) with 0%nat in Hl, Hu by lia.
  unfold first_share, second_share in Hl, Hu. cbn in Hl, Hu.
  rewrite Nat.min_0_r in Hl, Hu.
  apply length_zero_iff_nil in Hl, Hu.
  destruct (choose_extra_bins _ _ _) as [el eu]. cbn [fst snd] in *.
  now subst.
Qed.

Lemma bin_count_bounds_witness :
  3 <= 10 /\
  exists bins,
    distribution_bins fp_1_18 10 DAYS = Ok bins /\
    2 <= Z.of_nat (length bins) <= 2 * 10 - 1.
Proof.
  split; [lia|].
  destruct (bin_count_bounds fp_1_18 10 DAYS) as (bins & Hb & Hn & _);
    [lia | vm_compute; discriminate |].
  exists bins. split; [exact Hb | exact Hn].
Defined.

(** ** When the bins are contiguous *)

Lemma links_lower_extras_or (p : binning_inputs) (num_bins : Z) :
  0 <= bin_width p ->
  fst (extra_bins p num_bins) = [] \/
  (length (fst (potential_extra_bins p num_bins)) <= 1)%nat ->
  links (min_inner_bin p num_bins) (fst (extra_bins p num_bins)) (lower_end p).
Proof.
  intros Hw [E | Hpl]; [|now apply links_lower_extras].
  unfold min_inner_bin. rewrite E. reflexivity.
Qed.

Lemma links_assemble_bins_or (p : binning_inputs) (num_bins : Z) :
  0 <= bin_width p -> 0 <= bins_within p ->
  fst (extra_bins p num_bins) = [] \/
  (length (fst (potential_extra_bins p num_bins)) <= 1)%nat ->
  links (min_val p) (assemble_bins p num_bins) (max_val p + 1).
Proof.
  intros Hw Hb Hpl. rewrite assemble_bins_eq.
  apply (links_app _ _ _ (min_inner_bin p num_bins)).
  { cbn. split; [reflexivity | lia]. }
  apply (links_app _ _ _ (lower_end p)); [now apply links_lower_extras_or|].
  apply (links_app _ _ _ (upper_end_within p + 1));
    [now apply links_core_bins|].
  apply (links_app _ _ _ (max_inner_bin p num_bins + 1));
    [now apply links_upper_extras|].
  cbn. split; reflexivity.
Qed.

Lemma links_is_contiguous (l : list bin) :
  forall s n, links s l n -> contiguous l = true.
Proof.
  induction l as [|b l IH]; intros s n H; [reflexivity|].
  destruct H as [_ H]. destruct l as [|b' l']; [reflexivity|].
  change (contiguous (b :: b' :: l'))
    with ((snd b + 1 =? fst b') && contiguous (b' :: l')).
  rewrite (IH _ _ H), andb_true_r.
  apply Z.eqb_eq. destruct H as [H _]. lia.
Qed.

(** X9: for [num_bins >= 3] and a lower quantile strictly below the upper
    one, the bins are contiguous, each starting one above the end of the one
    before, exactly when no lower extra bin is chosen or the lower pool
    holds a single candidate. *)
Theorem contiguous_iff_lower_extras_linked
    (fp : FeatureProcessor) (num_bins : Z) (time_unit : string) :
  3 <= num_bins ->
  let p := parameters_of fp num_bins time_unit in
  lower_end p < upper_end p ->
  exists bins,
    distribution_bins fp num_bins time_unit = Ok bins /\
    (contiguous bins = true <->
     fst (extra_bins p num_bins) = [] \/
     (length (fst (potential_extra_bins p num_bins)) <= 1)%nat).
Proof.
  intros H p Hlt.
  exists (assemble_bins p num_bins).
  split; [apply distribution_bins_ok; lia|].
  assert (Hle : lower_end p <= upper_end p) by lia.
  pose proof (bin_width_nonneg fp num_bins time_unit H Hle) as Hw.
  pose proof (bins_within_nonneg fp num_bins time_unit H) as Hb.
  fold p in Hw, Hb.
  assert (Hpos : 0 < bin_width p).
  { pose proof (parameters_bin_width fp num_bins time_unit) as Hbw.
    cbv zeta in Hbw. fold p in Hbw.
    pose proof (ceiling_bounds (upper_end p - lower_end p) (num_bins - 2)).
    destruct (corrected_bin_width_cases (min_val p) (max_val p) num_bins
                (- (- (upper_end p - lower_end p) / (num_bins - 2))))
      as [Hc | (Hc & Hc1 & _)]; rewrite Hc in Hbw; nia. }
  split.
  - intro C.
    destruct (fst (extra_bins p num_bins)) as [|b el] eqn:E; [now left|].
    right.
    destruct (Nat.le_gt_cases
                (length (fst (potential_extra_bins p num_bins))) 1)
      as [L|L]; [exact L|].
    exfalso.
    rewrite (lower_disorder_breaks_contiguity p num_bins) in C;
      [discriminate | exact Hpos | exact Hb | lia | rewrite E; discriminate].
  - intro Hor. apply (links_is_contiguous _ (min_val p) (max_val p + 1)).
    now apply links_assemble_bins_or.
Qed.

Lemma contiguous_iff_lower_extras_linked_witness :
  3 <= 10 /\
  lower_end (parameters_of fp_1_100 10 DAYS)
    < upper_end (parameters_of fp_1_100 10 DAYS) /\
  exists bins,
    distribution_bins fp_1_100 10 DAYS = Ok bins /\ contiguous bins = true.
Proof.
  split; [lia|]. split; [reflexivity|].
  destruct (contiguous_iff_lower_extras_linked fp_1_100 10 DAYS)
    as (bins & Hb & Hiff); [lia | reflexivity |].
  exists bins. split; [exact Hb|]. apply Hiff. left. reflexivity.
Defined.

(** X10: on a platform that counts accurately, with [num_bins >= 3], the
    quantiles in order and every case between the minimum and the maximum,
    the counts of the rows add up to the number of cases whenever no lower
    extra bin is chosen or the lower pool holds a single candidate. *)
Theorem counts_add_up_when_linked
    (fp : FeatureProcessor) (sample : list Z) (num_bins : Z)
    (time_unit : string) :
  3 <= num_bins ->
  counts_accurately fp sample ->
  let p := parameters_of fp num_bins time_unit in
  min_val p <= lower_end p <= upper_end p -> upper_end p <= max_val p ->
  (forall x, In x sample -> min_val p <= x <= max_val p) ->
  fst (extra_bins p num_bins) = [] \/
  (length (fst (potential_extra_bins p num_bins)) <= 1)%nat ->
  exists rows,
    compute_binned_distribution_case_durations fp num_bins time_unit =
      Ok rows /\
    total_cases rows = Z.of_nat (length sample).
Proof.
  intros H Hacc p Hq Hmax Hsample Hor.
  eexists. split; [apply compute_ok; lia|].
  rewrite (total_cases_accurate fp sample) by assumption. fold p.
  assert (Hw : 0 <= bin_width p) by (apply bin_width_nonneg; [lia | apply Hq]).
  assert (Hb : 0 <= bins_within p) by now apply bins_within_nonneg.
  destruct (links_cases sample (assemble_bins p num_bins)
              (min_val p) (max_val p + 1)) as [_ ->].
  - now apply links_assemble_bins_or.
  - now apply well_ordered_assemble_bins.
  - replace (max_val p + 1 - 1) with (max_val p) by lia.
    now apply sample_count_all.
Qed.

Lemma counts_add_up_when_linked_witness :
  3 <= 10 /\
  counts_accurately fp_1_100 sample_1_100 /\
  exists rows,
    compute_binned_distribution_case_durations fp_1_100 10 DAYS = Ok rows /\
    total_cases rows = Z.of_nat (length sample_1_100).
Proof.
  assert (Hacc : counts_accurately fp_1_100 sample_1_100)
    by (intros tu q; reflexivity).
  split; [lia|]. split; [exact Hacc|].
  apply (counts_add_up_when_linked fp_1_100 sample_1_100 10 DAYS).
  - lia.
  - exact Hacc.
  - vm_compute. split; discriminate.
  - vm_compute. discriminate.
  - intros x Hx. unfold sample_1_100 in Hx. rewrite range1_rounds in Hx.
    apply In_rounds in Hx. cbn. lia.
  - left. reflexivity.
Defined.

(** ** create_overview_screen *)

(** X11: the distribution that [create_overview_screen] asks for (ten bins,
    days) never raises: it queries the quantiles 1/20, 19/20, 0 and 1, and
    when the first two come back in order it yields between 2 and 19 rows,
    the first starting at the minimum and the last ending at the maximum. *)
Theorem overview_distribution_rows (fp : FeatureProcessor) :
  quantile_pql fp DAYS (1 # 20) <= quantile_pql fp DAYS (19 # 20) ->
  exists first_high last_low first_cases last_cases inner,
    create_overview_screen_distribution fp =
    Ok ([((Some (quantile_pql fp DAYS 0%Q), Some first_high), first_cases)]
        ++ inner ++
        [((Some last_low, Some (quantile_pql fp DAYS 1%Q)), last_cases)]) /\
    (length inner <= 17)%nat.
Proof.
  intro Hle. unfold create_overview_screen_distribution.
  rewrite compute_ok by lia.
  set (p := parameters_of fp 10 DAYS).
  assert (Hn : 2 <= Z.of_nat (length (assemble_bins p 10)) <= 2 * 10 - 1)
    by (apply assemble_bins_count; [lia | exact Hle]).
  rewrite assemble_bins_eq in *.
  set (mid := fst (extra_bins p 10) ++ core_bins p ++ snd (extra_bins p 10)).
  assert (E : fst (extra_bins p 10) ++ core_bins p ++ snd (extra_bins p 10)
              ++ [(max_inner_bin p 10 + 1, max_val p)] =
              mid ++ [(max_inner_bin p 10 + 1, max_val p)])
    by (unfold mid; now rewrite <- !app_assoc).
  rewrite E in *. rewrite !map_app. cbn [map closed fst snd].
  do 4 eexists.
  exists (map (fun b => (closed b, count_pql fp DAYS (Between (fst b) (snd b))))
              mid).
  split; [reflexivity|].
  rewrite length_map. rewrite !length_app in Hn. cbn [length] in Hn. lia.
Qed.

Lemma overview_distribution_rows_witness :
  quantile_pql fp_1_100 DAYS (1 # 20) <= quantile_pql fp_1_100 DAYS (19 # 20) /\
  exists first_high last_low first_cases last_cases inner,
    create_overview_screen_distribution fp_1_100 =
    Ok ([((Some 1, Some first_high), first_cases)] ++ inner ++
        [((Some last_low, Some 100), last_cases)]) /\
    (length inner <= 17)%nat.
Proof.
  split; [vm_compute; discriminate|].
  apply (overview_distribution_rows fp_1_100). vm_compute. discriminate.
Defined.

(** * Properties of the process configuration *)

(** ** Column types *)

Lemma gen_column_datatype_value (t : TableColumnType) :
  _gen_column_datatype (type_value t) = Done t.
Proof. destruct t; reflexivity. Qed.

Lemma gen_column_datatype_done (s : string) (t : TableColumnType) :
  _gen_column_datatype s = Done t -> s = type_value t.
Proof.
  unfold _gen_column_datatype.
  repeat match goal with
         | |- context [String.eqb s ?c] =>
           destruct (String.eqb_spec s c) as [->|?]
         end; intro H; inversion H; reflexivity.
Qed.

Lemma gen_column_datatype_fail (s : string) (e : lookup_error) :
  _gen_column_datatype s = Fail e -> e = KeyError.
Proof.
  unfold _gen_column_datatype.
  repeat match goal with
         | |- context [String.eqb s ?c] => destruct (String.eqb s c)
         end; intro H; inversion H; reflexivity.
Qed.

(** X12: [_gen_column_datatype] decodes the value of every member of
    [TableColumnType] to that member, decodes nothing else, and answers any
    other string, such as a lower-case type name, with a [KeyError]. *)
Theorem gen_column_datatype_round_trip :
  (forall t, _gen_column_datatype (type_value t) = Done t) /\
  (forall s t, _gen_column_datatype s = Done t <-> s = type_value t) /\
  (forall s, _gen_column_datatype s = Fail KeyError <->
             forall t, s <> type_value t) /\
  _gen_column_datatype "string" = Fail KeyError.
Proof.
  split; [exact gen_column_datatype_value|]. split; [|split; [|reflexivity]].
  - intros s t. split; [apply gen_column_datatype_done|].
    intros ->. apply gen_column_datatype_value.
  - intro s. split.
    + intros H t ->. rewrite gen_column_datatype_value in H. discriminate.
    + intro H. destruct (_gen_column_datatype s) as [t|e] eqn:E.
      * apply gen_column_datatype_done in E. now apply H in E.
      * now rewrite (gen_column_datatype_fail s e E).
Qed.

(** X13: [_create_columns] succeeds exactly when every entry carries the
    value of a member of [TableColumnType]; it then returns one column per
    entry, in order, with the name of the entry and the decoded type;
    otherwise the whole call ends in a [KeyError]. *)
Theorem create_columns_all_or_nothing (table_columns : list (string * string)) :
  ((exists cols, _create_columns table_columns = Done cols) <->
   Forall (fun c => exists t, snd c = type_value t) table_columns) /\
  (forall cols,
     _create_columns table_columns = Done cols ->
     map name cols = map fst table_columns /\
     map (fun c => type_value (datatype c)) cols = map snd table_columns) /\
  (forall e, _create_columns table_columns = Fail e -> e = KeyError).
Proof.
  induction table_columns as [|[n t] rest (IHiff & IHdone & IHfail)].
  - split; [|split].
    + split; [constructor | intros _; now exists []].
    + intros cols H. inversion H. split; reflexivity.
    + discriminate.
  - cbn [_create_columns].
    destruct (_gen_column_datatype t) as [ty|e] eqn:E.
    + apply gen_column_datatype_done in E. subst t.
      destruct (_create_columns rest) as [cols|e'] eqn:R.
      * split; [|split].
        -- split; [|intros _; eauto].
           intros _. constructor; [cbn; eauto|]. apply IHiff. eauto.
        -- intros cols' H. inversion H. subst cols'. cbn [map name datatype].
           destruct (IHdone cols eq_refl) as [-> ->]. split; reflexivity.
        -- discriminate.
      * split; [|split].
        -- split; [intros [cols H]; discriminate|].
           intro F. inversion F as [|? ? _ F']. subst.
           apply IHiff in F'. destruct F' as [cols F']. discriminate.
        -- discriminate.
        -- intros e H. inversion H. subst. now apply IHfail.
    + split; [|split].
      * split; [intros [cols H]; discriminate|].
        intro F. inversion F as [|? ? [ty Hty] _]. subst. cbn in Hty. subst t.
        rewrite gen_column_datatype_value in E. discriminate.
      * discriminate.
      * intros e' H. inversion H. subst.
        now apply (gen_column_datatype_fail t).
Qed.

(** ** The table a getter works on *)

Lemma table_named_done (pc : ProcessConfig) (n : string) (t : BaseTable) :
  table_named pc n = Done t -> In t (all_tables pc) /\ table_str t = n.
Proof.
  unfold table_named. fold (all_tables pc).
  destruct (filter _ (all_tables pc)) as [|t' l] eqn:E; [discriminate|].
  intro H. inversion H. subst t'.
  assert (Hin : In t (filter (fun t0 => (table_str t0 =? n)%string)
                        (all_tables pc))) by (rewrite E; now left).
  apply filter_In in Hin. destruct Hin as [Hin Hn].
  split; [exact Hin | now apply String.eqb_eq].
Qed.

Lemma table_named_fail (pc : ProcessConfig) (n : string) (e : lookup_error) :
  table_named pc n = Fail e ->
  e = IndexError /\ forall t, In t (all_tables pc) -> table_str t <> n.
Proof.
  unfold table_named. fold (all_tables pc).
  destruct (filter _ (all_tables pc)) as [|t' l] eqn:E; [|discriminate].
  intro H. inversion H. split; [reflexivity|].
  intros t Hin Hn.
  assert (Hf : In t (filter (fun t0 => (table_str t0 =? n)%string)
                       (all_tables pc))).
  { apply filter_In. split; [exact Hin | now apply String.eqb_eq]. }
  rewrite E in Hf. destruct Hf.
Qed.

Lemma In_remove_name (x y : string) (l : list string) :
  In y (remove_name x l) -> In y l.
Proof.
  induction l as [|n l IH]; [intros []|].
  cbn [remove_name]. destruct (n =? x)%string.
  - intro H. now right.
  - intros [H|H]; [now left | right; now apply IH].
Qed.

Lemma In_drop_name (x : option string) (y : string) (l : list string) :
  In y (drop_name x l) -> In y l.
Proof.
  destruct x as [x|]; [|trivial]. cbn [drop_name].
  destruct (name_in x l); [apply In_remove_name | trivial].
Qed.

Lemma type_in_categorical (t : TableColumnType) :
  type_in t categorical_types = true <-> t = STRING \/ t = BOOLEAN.
Proof.
  destruct t; cbn; split; intro H; try discriminate; try reflexivity; auto;
    destruct H; discriminate.
Qed.

Lemma type_in_numeric (t : TableColumnType) :
  type_in t numeric_types = true <-> t = INTEGER \/ t = FLOAT.
Proof.
  destruct t; cbn; split; intro H; try discriminate; try reflexivity; auto;
    destruct H; discriminate.
Qed.

(** X14: [get_categorical_numerical_column_names] fails, with an
    [IndexError], exactly when no table has the name; otherwise it answers
    for the first table of that name among the activity, case and other
    tables, and every name it returns is the name of a column of that table
    of type STRING or BOOLEAN, respectively INTEGER or FLOAT. *)
Theorem column_names_of_named_table (pc : ProcessConfig) (n : string) :
  (get_categorical_numerical_column_names pc n = Fail IndexError <->
   forall t, In t (all_tables pc) -> table_str t <> n) /\
  (forall e, get_categorical_numerical_column_names pc n = Fail e ->
             e = IndexError) /\
  (forall categorical_cols numeric_cols,
     get_categorical_numerical_column_names pc n =
       Done (categorical_cols, numeric_cols) ->
     exists table,
       table_named pc n = Done table /\
       In table (all_tables pc) /\ table_str table = n /\
       (forall x, In x categorical_cols ->
          exists c, In c (columns table) /\ name c = x /\
                    (datatype c = STRING \/ datatype c = BOOLEAN)) /\
       (forall x, In x numeric_cols ->
          exists c, In c (columns table) /\ name c = x /\
                    (datatype c = INTEGER \/ datatype c = FLOAT))).
Proof.
  unfold get_categorical_numerical_column_names.
  destruct (table_named pc n) as [table|e] eqn:E.
  - destruct (table_named_done pc n table E) as [Hin Hn].
    assert (C : forall x, In x (categorical_names table) ->
                exists c, In c (columns table) /\ name c = x /\
                          (datatype c = STRING \/ datatype c = BOOLEAN)).
    { intros x Hx. unfold categorical_names in Hx. apply in_map_iff in Hx.
      destruct Hx as (c & Hc & Hf). apply filter_In in Hf.
      destruct Hf as [Hf Ht]. apply type_in_categorical in Ht. eauto. }
    assert (N : forall x, In x (numeric_names table) ->
                exists c, In c (columns table) /\ name c = x /\
                          (datatype c = INTEGER \/ datatype c = FLOAT)).
    { intros x Hx. unfold numeric_names in Hx. apply in_map_iff in Hx.
      destruct Hx as (c & Hc & Hf). apply filter_In in Hf.
      destruct Hf as [Hf Ht]. apply type_in_numeric in Ht. eauto. }
    split; [|split].
    + split.
      * destruct (class_of table); discriminate.
      * intro H. exfalso. now apply (H table).
    + intro e. destruct (class_of table); discriminate.
    + intros cat num H. exists table.
      split; [reflexivity|]. split; [exact Hin|]. split; [exact Hn|].
      destruct (class_of table) as [cid act ev srt ct | cid ats |];
        injection H as <- <-; split; intros x Hx;
        try (apply (In_drop_name srt) in Hx; apply (In_drop_name srt) in Hx;
             apply (In_drop_name (Some act)) in Hx); auto.
  - destruct (table_named_fail pc n e E) as [-> Hno].
    split; [|split].
    + split; [intros _; exact Hno | reflexivity].
    + intros e H. now inversion H.
    + discriminate.
Qed.

(** ** Columns of an activity table *)

Lemma name_in_spec (x : string) (l : list string) :
  name_in x l = true <-> In x l.
Proof.
  unfold name_in. rewrite existsb_exists. split.
  - intros (y & Hy & E). apply String.eqb_eq in E. now subst.
  - intro H. exists x. split; [exact H | apply String.eqb_refl].
Qed.

Lemma filter_other_names (x : string) (l : list string) :
  ~ In x l -> filter (fun y => negb (y =? x)%string) l = l.
Proof.
  intro H. apply forallb_filter_id. apply forallb_forall. intros y Hy.
  destruct (String.eqb_spec y x) as [->|]; [contradiction | reflexivity].
Qed.

Lemma remove_name_filter (x : string) (l : list string) :
  NoDup l -> remove_name x l = filter (fun y => negb (y =? x)%string) l.
Proof.
  induction 1 as [|n l Hn Hl IH]; [reflexivity|].
  cbn [remove_name filter]. destruct (String.eqb_spec n x) as [->|Hne].
  - cbn [negb]. now rewrite filter_other_names.
  - cbn [negb]. now rewrite IH.
Qed.

Lemma drop_name_filter (x : option string) (l : list string) :
  NoDup l ->
  drop_name x l =
  filter (fun y => match x with
                   | Some s => negb (y =? s)%string
                   | None => true
                   end) l.
Proof.
  intro H. destruct x as [x|]; cbn [drop_name].
  - destruct (name_in x l) eqn:E.
    + now apply remove_name_filter.
    + symmetry. apply filter_other_names. intro Hin.
      apply name_in_spec in Hin. congruence.
  - symmetry. apply forallb_filter_id. apply forallb_forall. reflexivity.
Qed.

Lemma filter_twice {A : Type} (f g : A -> bool) (l : list A) :
  filter f (filter g l) = filter (fun x => g x && f x) l.
Proof.
  induction l as [|a l IH]; [reflexivity|].
  cbn [filter]. destruct (g a); cbn [filter andb]; rewrite IH;
    [destruct (f a)|]; reflexivity.
Qed.

Lemma distinct_names_filter (keep : TableColumn -> bool)
    (cols : list TableColumn) :
  NoDup (map name cols) -> NoDup (map name (filter keep cols)).
Proof.
  induction cols as [|c cols IH]; [trivial|].
  cbn [map filter]. intro H. inversion H as [|? ? Hc Hrest]. subst.
  destruct (keep c); [|now apply IH].
  cbn [map]. constructor; [|now apply IH].
  intro Hin. apply Hc. apply in_map_iff in Hin.
  destruct Hin as (c' & Hname & Hf). apply filter_In in Hf.
  apply in_map_iff. exists c'. split; [exact Hname | apply Hf].
Qed.

Lemma drop_names_filter (act : string) (srt : option string) (l : list string) :
  NoDup l ->
  drop_name srt (drop_name srt (drop_name (Some act) l)) =
  filter (kept_name act srt) l.
Proof.
  intro H.
  rewrite (drop_name_filter (Some act) l H).
  set (l1 := filter (fun y => negb (y =? act)%string) l).
  assert (H1 : NoDup l1) by now apply NoDup_filter.
  rewrite (drop_name_filter srt l1 H1).
  rewrite (drop_name_filter srt) by now apply NoDup_filter.
  unfold l1. rewrite !filter_twice. apply filter_ext. intro x. unfold kept_name.
  destruct (negb (x =? act)%string), srt as [s|]; cbn [andb];
    try destruct (negb (x =? s)%string); reflexivity.
Qed.

Lemma activity_table_column_names_eq
    (pc : ProcessConfig) (n : string) (table : BaseTable)
    (cid act ev : string) (srt ct : option string) :
  table_named pc n = Done table ->
  class_of table = ActivityTable cid act ev srt ct ->
  NoDup (map name (columns table)) ->
  get_categorical_numerical_column_names pc n =
  Done (filter (kept_name act srt) (categorical_names table),
        filter (kept_name act srt) (numeric_names table)).
Proof.
  intros Ht Hc Hnd. unfold get_categorical_numerical_column_names.
  rewrite Ht, Hc.
  rewrite !drop_names_filter; [reflexivity | |];
    unfold numeric_names, categorical_names; now apply distinct_names_filter.
Qed.

(** X15: for an activity table whose column names are distinct,
    [get_categorical_numerical_column_names] returns the names of the
    STRING and BOOLEAN columns and those of the INTEGER and FLOAT columns,
    in the order of the table, without the activity column and the sorting
    column. *)
Theorem activity_table_column_names
    (pc : ProcessConfig) (n : string) (table : BaseTable)
    (cid act ev : string) (srt ct : option string) :
  table_named pc n = Done table ->
  class_of table = ActivityTable cid act ev srt ct ->
  NoDup (map name (columns table)) ->
  exists categorical_cols numeric_cols,
    get_categorical_numerical_column_names pc n =
      Done (categorical_cols, numeric_cols) /\
    categorical_cols = filter (kept_name act srt) (categorical_names table) /\
    numeric_cols = filter (kept_name act srt) (numeric_names table) /\
    ~ In act (categorical_cols ++ numeric_cols) /\
    (forall s, srt = Some s -> ~ In s (categorical_cols ++ numeric_cols)).
Proof.
  intros Ht Hc Hnd. do 2 eexists.
  split; [now apply (activity_table_column_names_eq pc n table cid act ev srt ct)|].
  split; [reflexivity|]. split; [reflexivity|].
  split.
  - intro H. apply in_app_or in H.
    destruct H as [H|H]; apply filter_In in H; destruct H as [_ H];
      unfold kept_name in H; rewrite String.eqb_refl in H; discriminate.
  - intros s -> H. apply in_app_or in H.
    destruct H as [H|H]; apply filter_In in H; destruct H as [_ H];
      unfold kept_name in H; rewrite String.eqb_refl, andb_false_r in H;
      discriminate.
Qed.

(** X16: on a table of the class [OtherTable]
    [get_categorical_numerical_columns] always ends in an [AttributeError],
    the table having no [caseid_col_str], while
    [get_categorical_numerical_column_names] returns the names of its
    categorical and numeric columns. *)
Theorem other_table_has_no_caseid_col
    (pc : ProcessConfig) (n : string) (table : BaseTable) :
  table_named pc n = Done table ->
  class_of table = OtherTable ->
  get_categorical_numerical_columns pc n = Fail AttributeError /\
  get_categorical_numerical_column_names pc n =
    Done (categorical_names table, numeric_names table).
Proof.
  intros Ht Hc.
  unfold get_categorical_numerical_columns,
    get_categorical_numerical_column_names, caseid_col_of.
  rewrite Ht. cbn [and_then]. rewrite Hc. split; reflexivity.
Qed.

Ltac distinct_names :=
  repeat (constructor; [cbn; intuition discriminate|]); constructor.

Lemma activity_table_column_names_witness :
  table_named example_config "ACTIVITIES" = Done activities_table /\
  NoDup (map name (columns activities_table)) /\
  exists categorical_cols numeric_cols,
    get_categorical_numerical_column_names example_config "ACTIVITIES" =
      Done (categorical_cols, numeric_cols) /\
    categorical_cols = ["CASE_ID"; "USER"]%string /\
    numeric_cols = ["COST"]%string.
Proof.
  assert (Hnd : NoDup (map name (columns activities_table)))
    by distinct_names.
  split; [reflexivity|]. split; [exact Hnd|].
  destruct (activity_table_column_names example_config "ACTIVITIES"
              activities_table "CASE_ID" "ACTIVITY" "EVENTTIME"
              (Some "SORTING"%string) (Some "CASES"%string)
              eq_refl eq_refl Hnd)
    as (cat & num & Hget & Hcat & Hnum & _).
  exists cat, num. split; [exact Hget|]. split; [exact Hcat | exact Hnum].
Defined.

Lemma other_table_has_no_caseid_col_witness :
  table_named example_config "VENDORS" = Done vendors_table /\
  class_of vendors_table = OtherTable /\
  get_categorical_numerical_columns example_config "VENDORS" =
    Fail AttributeError.
Proof.
  split; [reflexivity|]. split; [reflexivity|].
  apply (other_table_has_no_caseid_col example_config "VENDORS" vendors_table);
    reflexivity.
Defined.

Lemma column_names_of_named_table_example :
  get_categorical_numerical_column_names example_config "ORDERS" =
    Fail IndexError /\
  get_categorical_numerical_columns example_config "CASES" =
    Done ([{| name := "REGION"; datatype := STRING |}],
          [{| name := "AMOUNT"; datatype := FLOAT |}]).
Proof. split; reflexivity. Qed.

(** ** The dictionary of the tables *)

Lemma find_snoc {A : Type} (p : A -> bool) (l : list A) (a : A) :
  find p (l ++ [a]) =
  match find p l with
  | Some x => Some x
  | None => if p a then Some a else None
  end.
Proof.
  induction l as [|b l IH]; [reflexivity|].
  cbn [app find]. destruct (p b); [reflexivity | exact IH].
Qed.

(** The dictionary holds, under each name, the last table of that name. *)
Lemma table_dict_of_last (tables : list BaseTable) (k : string) :
  table_dict_of tables k =
  find (fun t => (table_str t =? k)%string) (rev tables).
Proof.
  unfold table_dict_of.
  assert (G : forall l d,
             fold_left
               (fun (d : string -> option BaseTable) (t : BaseTable) =>
                  fun k => if (k =? table_str t)%string then Some t else d k)
               l d k =
             match find (fun t => (table_str t =? k)%string) (rev l) with
             | Some t => Some t
             | None => d k
             end).
  { induction l as [|t l IH]; intro d; [reflexivity|].
    cbn [fold_left rev]. rewrite IH, find_snoc.
    destruct (find _ (rev l)); [reflexivity|].
    rewrite (String.eqb_sym k). now destruct (table_str t =? k)%string. }
  rewrite G. now destruct (find _ (rev tables)).
Qed.

Lemma find_hd_filter {A : Type} (p : A -> bool) (l : list A) :
  find p l = hd_error (filter p l).
Proof.
  induction l as [|a l IH]; [reflexivity|].
  cbn [find filter]. destruct (p a); [reflexivity | exact IH].
Qed.

Lemma find_rev_unique {A : Type} (p : A -> bool) (l : list A) :
  (forall a b, In a l -> In b l -> p a = true -> p b = true -> a = b) ->
  find p (rev l) = find p l.
Proof.
  intro U. destruct (find p l) as [a|] eqn:E.
  - apply find_some in E. destruct E as [Ha Hpa].
    destruct (find p (rev l)) as [b|] eqn:R.
    + apply find_some in R. destruct R as [Hb Hpb].
      apply in_rev in Hb. f_equal. now apply U.
    + exfalso. apply in_rev in Ha.
      rewrite (find_none _ _ R a Ha) in Hpa. discriminate.
  - destruct (find p (rev l)) as [b|] eqn:R; [|reflexivity].
    apply find_some in R. destruct R as [Hb Hpb]. apply in_rev in Hb.
    now rewrite (find_none _ _ E b Hb) in Hpb.
Qed.

Lemma NoDup_map_unique {A B : Type} (f : A -> B) (l : list A) (a b : A) :
  NoDup (map f l) -> In a l -> In b l -> f a = f b -> a = b.
Proof.
  induction l as [|c l IH]; [intros _ []|].
  cbn [map]. intro H. inversion H as [|? ? Hc Hl]. subst.
  intros [->|Ha] [->|Hb] E; try reflexivity.
  - exfalso. apply Hc. rewrite E. now apply in_map.
  - exfalso. apply Hc. rewrite <- E. now apply in_map.
  - now apply IH.
Qed.

(** X17: when the tables have distinct names, the dictionary [table_dict]
    and the search of the two getters find the same table under every name,
    and one fails ([KeyError]) exactly when the other does ([IndexError]). *)
Theorem table_dict_agrees_with_search (pc : ProcessConfig) (k : string) :
  NoDup (map table_str (all_tables pc)) ->
  (forall t, table_dict_lookup pc k = Done t <-> table_named pc k = Done t) /\
  (table_dict_lookup pc k = Fail KeyError <->
   table_named pc k = Fail IndexError).
Proof.
  intro Hnd. unfold table_dict_lookup, _create_table_dict, table_named.
  fold (all_tables pc). rewrite table_dict_of_last, find_rev_unique.
  2:{ intros a b Ha Hb Pa Pb. apply String.eqb_eq in Pa, Pb.
      apply (NoDup_map_unique table_str (all_tables pc)); congruence. }
  rewrite find_hd_filter.
  destruct (filter _ (all_tables pc)) as [|t l]; cbn [hd_error].
  - split; [intro t; split; discriminate | split; reflexivity].
  - split; [intro t'; split; intro H; inversion H; reflexivity
           | split; discriminate].
Qed.

Lemma table_dict_agrees_with_search_witness :
  NoDup (map table_str (all_tables example_config)) /\
  table_dict_lookup example_config "CASES" = Done cases_table /\
  table_named example_config "CASES" = Done cases_table.
Proof.
  assert (Hnd : NoDup (map table_str (all_tables example_config)))
    by distinct_names.
  split; [exact Hnd|].
  destruct (table_dict_agrees_with_search example_config "CASES" Hnd)
    as [Hiff _].
  assert (H : table_named example_config "CASES" = Done cases_table)
    by reflexivity.
  split; [apply Hiff, H | exact H].
Defined.

(** ** The columns of an activity table *)

Lemma type_value_injective (a b : TableColumnType) :
  type_value a = type_value b -> a = b.
Proof. destruct a, b; cbn; intro H; try reflexivity; discriminate. Qed.

Lemma column_eqb_eq (a b : TableColumn) : column_eqb a b = true <-> a = b.
Proof.
  unfold column_eqb, type_eqb. rewrite andb_true_iff, !String.eqb_eq.
  destruct a as [na ta], b as [nb tb]. cbn [name datatype]. split.
  - intros [-> H]. apply type_value_injective in H. now subst.
  - intro H. inversion H. split; reflexivity.
Qed.

Lemma filter_other_columns (x : string) (cols : list TableColumn) :
  ~ In x (map name cols) ->
  filter (fun c => negb (name c =? x)%string) cols = cols.
Proof.
  intro H. apply forallb_filter_id. apply forallb_forall. intros c Hc.
  destruct (String.eqb_spec (name c) x) as [E|]; [|reflexivity].
  exfalso. apply H. rewrite <- E. now apply in_map.
Qed.

Lemma remove_column_filter (c : TableColumn) (cols : list TableColumn) :
  NoDup (map name cols) -> In c cols ->
  remove_column c cols =
  filter (fun c' => negb (name c' =? name c)%string) cols.
Proof.
  induction cols as [|c0 rest IH]; [intros _ []|].
  cbn [map]. intro H. inversion H as [|? ? Hc0 Hrest]. subst.
  intro Hin. cbn [remove_column filter].
  destruct (column_eqb c0 c) eqn:E.
  - apply column_eqb_eq in E. subst c0. rewrite String.eqb_refl. cbn [negb].
    now rewrite filter_other_columns.
  - destruct Hin as [->|Hin].
    + assert (column_eqb c c = true) by now apply column_eqb_eq. congruence.
    + destruct (String.eqb_spec (name c0) (name c)) as [En|En].
      * exfalso. apply Hc0. rewrite En. now apply in_map.
      * cbn [negb]. now rewrite IH.
Qed.

(** The three ways [drop_column] ends. *)
Lemma drop_column_spec (x : string) (col_names : list string)
    (cols : list TableColumn) :
  NoDup (map name cols) ->
  drop_column (Some x) col_names cols =
  if name_in x col_names then
    if name_in x (map name cols)
    then Done (filter (fun c => negb (name c =? x)%string) cols)
    else Fail IndexError
  else Done cols.
Proof.
  intro Hnd. cbn [drop_column]. destruct (name_in x col_names); [|reflexivity].
  destruct (filter (fun col => (name col =? x)%string) cols) as [|c l] eqn:F.
  - destruct (name_in x (map name cols)) eqn:E; [|reflexivity].
    exfalso. apply name_in_spec in E. apply in_map_iff in E.
    destruct E as (c & Hc & Hin).
    assert (Hf : In c (filter (fun col => (name col =? x)%string) cols)).
    { apply filter_In. split; [exact Hin | now apply String.eqb_eq]. }
    rewrite F in Hf. destruct Hf.
  - assert (Hf : In c (filter (fun col => (name col =? x)%string) cols))
      by (rewrite F; now left).
    apply filter_In in Hf. destruct Hf as [Hin Hx].
    apply String.eqb_eq in Hx. subst x.
    replace (name_in (name c) (map name cols)) with true.
    + now rewrite remove_column_filter.
    + symmetry. apply name_in_spec. now apply in_map.
Qed.

Lemma names_of_filter (p : string -> bool) (cols : list TableColumn) :
  map name (filter (fun c => p (name c)) cols) = filter p (map name cols).
Proof.
  induction cols as [|c cols IH]; [reflexivity|].
  cbn [filter map]. destruct (p (name c)); cbn [map]; now rewrite IH.
Qed.

Lemma name_in_filter (x : string) (p : string -> bool) (l : list string) :
  name_in x (filter p l) = name_in x l && p x.
Proof.
  destruct (name_in x (filter p l)) eqn:E.
  - apply name_in_spec in E. apply filter_In in E. destruct E as [Hin Hp].
    apply name_in_spec in Hin. now rewrite Hin, Hp.
  - destruct (name_in x l) eqn:L; [|reflexivity].
    destruct (p x) eqn:P; [|reflexivity].
    exfalso. apply name_in_spec in L.
    assert (H : In x (filter p l)) by (apply filter_In; now split).
    apply name_in_spec in H. congruence.
Qed.

Lemma drop_column_present (x : string) (col_names : list string)
    (cols : list TableColumn) :
  NoDup (map name cols) ->
  name_in x col_names = name_in x (map name cols) ->
  drop_column (Some x) col_names cols =
  Done (filter (fun c => negb (name c =? x)%string) cols).
Proof.
  intros Hnd E. rewrite drop_column_spec by assumption. rewrite E.
  destruct (name_in x (map name cols)) eqn:P; [reflexivity|].
  rewrite filter_other_columns; [reflexivity|].
  intro H. apply name_in_spec in H. congruence.
Qed.

Lemma name_in_other_columns (x y : string) (cols : list TableColumn) :
  x <> y ->
  name_in x (map name (filter (fun c => negb (name c =? y)%string) cols)) =
  name_in x (map name cols).
Proof.
  intro H. rewrite (names_of_filter (fun n => negb (n =? y)%string)).
  rewrite name_in_filter.
  destruct (String.eqb_spec x y); [contradiction|]. apply andb_true_r.
Qed.

(** The removals of [get_categorical_numerical_columns] from one list of
    columns of an activity table whose activity, sorting and case id columns
    are three different columns. *)
Lemma drop_three_columns (cid act : string) (srt : option string)
    (cols : list TableColumn) :
  NoDup (map name cols) ->
  act <> cid -> srt <> Some act -> srt <> Some cid ->
  exists cols1 cols2,
    drop_column (Some act) (map name cols) cols = Done cols1 /\
    drop_column srt (map name cols) cols1 = Done cols2 /\
    drop_column (Some cid) (map name cols) cols2 =
      Done (filter (kept_column act srt cid) cols).
Proof.
  intros Hnd Hac Hsa Hsc.
  set (cols1 := filter (fun c => negb (name c =? act)%string) cols).
  assert (H1 : NoDup (map name cols1)) by now apply distinct_names_filter.
  assert (Hca : cid <> act) by congruence.
  assert (P1 : forall x, x <> act ->
               name_in x (map name cols) = name_in x (map name cols1)).
  { intros x Hx. unfold cols1. now rewrite name_in_other_columns. }
  exists cols1.
  destruct srt as [s|].
  - assert (Hs : s <> act) by congruence.
    assert (Hcs : cid <> s) by congruence.
    set (cols2 := filter (fun c => negb (name c =? s)%string) cols1).
    assert (H2 : NoDup (map name cols2)) by now apply distinct_names_filter.
    assert (P2 : name_in cid (map name cols) = name_in cid (map name cols2)).
    { unfold cols2. rewrite name_in_other_columns by assumption.
      now apply P1. }
    exists cols2.
    split; [now apply drop_column_present|].
    split; [exact (drop_column_present s _ cols1 H1 (P1 s Hs))|].
    rewrite (drop_column_present cid _ cols2 H2 P2).
    unfold cols2, cols1. rewrite !filter_twice. f_equal.
    apply filter_ext. intro c. unfold kept_column, kept_name.
    now rewrite andb_assoc.
  - exists cols1.
    split; [now apply drop_column_present|].
    split; [reflexivity|].
    rewrite (drop_column_present cid _ cols1 H1 (P1 cid Hca)).
    unfold cols1. rewrite !filter_twice. f_equal.
    apply filter_ext. intro c. unfold kept_column, kept_name.
    now rewrite andb_true_r.
Qed.

Lemma names_of_kept_columns (cid act : string) (srt : option string)
    (cols : list TableColumn) :
  map name (filter (kept_column act srt cid) cols) =
  filter (fun x => negb (x =? cid)%string)
         (filter (kept_name act srt) (map name cols)).
Proof.
  rewrite filter_twice.
  now rewrite <- (names_of_filter
                    (fun x => kept_name act srt x && negb (x =? cid)%string)).
Qed.

(** X18: for an activity table whose column names are distinct and whose
    activity, sorting and case id columns are three different columns,
    [get_categorical_numerical_columns] returns the categorical and the
    numeric columns without those three; their names are the names
    [get_categorical_numerical_column_names] returns, less the case id
    column. *)
Theorem activity_table_columns
    (pc : ProcessConfig) (n : string) (table : BaseTable)
    (cid act ev : string) (srt ct : option string) :
  table_named pc n = Done table ->
  class_of table = ActivityTable cid act ev srt ct ->
  NoDup (map name (columns table)) ->
  act <> cid -> srt <> Some act -> srt <> Some cid ->
  exists categorical_cols numeric_cols categorical_names numeric_names,
    get_categorical_numerical_columns pc n =
      Done (categorical_cols, numeric_cols) /\
    get_categorical_numerical_column_names pc n =
      Done (categorical_names, numeric_names) /\
    categorical_cols =
      filter (kept_column act srt cid) (categorical_columns table) /\
    numeric_cols = filter (kept_column act srt cid) (numeric_columns table) /\
    map name categorical_cols =
      filter (fun x => negb (x =? cid)%string) categorical_names /\
    map name numeric_cols =
      filter (fun x => negb (x =? cid)%string) numeric_names.
Proof.
  intros Ht Hc Hnd Hac Hsa Hsc.
  assert (Hcat : NoDup (map name (categorical_columns table)))
    by now apply distinct_names_filter.
  assert (Hnum : NoDup (map name (numeric_columns table)))
    by now apply distinct_names_filter.
  destruct (drop_three_columns cid act srt _ Hcat Hac Hsa Hsc)
    as (c1 & c2 & Ca & Cs & Cc).
  destruct (drop_three_columns cid act srt _ Hnum Hac Hsa Hsc)
    as (n1 & n2 & Na & Ns & Nc).
  do 4 eexists.
  split.
  { unfold get_categorical_numerical_columns. rewrite Ht. cbn [and_then].
    rewrite Hc. unfold caseid_col_of. rewrite Hc.
    fold (categorical_columns table). fold (numeric_columns table).
    change (categorical_names table)
      with (map name (categorical_columns table)).
    change (numeric_names table) with (map name (numeric_columns table)).
    rewrite Ca. cbn [and_then]. rewrite Na. cbn [and_then].
    rewrite Cs. cbn [and_then]. rewrite Ns. cbn [and_then].
    rewrite Cc. cbn [and_then]. rewrite Nc. cbn [and_then]. reflexivity. }
  split; [now apply (activity_table_column_names_eq pc n table cid act ev srt ct)|].
  split; [reflexivity|]. split; [reflexivity|].
  split; apply names_of_kept_columns.
Qed.

Lemma activity_table_columns_witness :
  table_named example_config "ACTIVITIES" = Done activities_table /\
  NoDup (map name (columns activities_table)) /\
  exists categorical_cols numeric_cols,
    get_categorical_numerical_columns example_config "ACTIVITIES" =
      Done (categorical_cols, numeric_cols) /\
    categorical_cols = [{| name := "USER"; datatype := STRING |}] /\
    numeric_cols = [{| name := "COST"; datatype := FLOAT |}].
Proof.
  assert (Hnd : NoDup (map name (columns activities_table)))
    by distinct_names.
  split; [reflexivity|]. split; [exact Hnd|].
  destruct (activity_table_columns example_config "ACTIVITIES"
              activities_table "CASE_ID" "ACTIVITY" "EVENTTIME"
              (Some "SORTING"%string) (Some "CASES"%string)
              eq_refl eq_refl Hnd)
    as (cat & num & cn & nn & Hget & _ & Hcat & Hnum & _);
    try discriminate.
  exists cat, num. split; [exact Hget|]. split; [exact Hcat | exact Hnum].
Defined.

Lemma categorical_not_numeric (table : BaseTable) (x : string) :
  NoDup (map name (columns table)) ->
  In x (categorical_names table) -> In x (numeric_names table) -> False.
Proof.
  intros Hnd Hc Hn. unfold categorical_names, numeric_names in *.
  apply in_map_iff in Hc, Hn.
  destruct Hc as (c & Ec & Hc). destruct Hn as (c' & En & Hn).
  apply filter_In in Hc, Hn. destruct Hc as [Hc Tc]. destruct Hn as [Hn Tn].
  assert (c = c')
    by (apply (NoDup_map_unique name (columns table)); congruence).
  subst c'. destruct (datatype c); discriminate.
Qed.

Lemma name_in_dropped (x : string) (cols : list TableColumn) :
  name_in x (map name (filter (fun c => negb (name c =? x)%string) cols)) =
  false.
Proof.
  rewrite (names_of_filter (fun n => negb (n =? x)%string)), name_in_filter.
  rewrite String.eqb_refl. apply andb_false_r.
Qed.

(** X19: when the sorting column of an activity table is its activity
    column and that column is categorical or numeric,
    [get_categorical_numerical_columns] ends in an [IndexError]: the column
    is removed as the activity column and looked up once more as the sorting
    column, the membership test reading the names taken before the
    removal. *)
Theorem sorting_by_activity_column_fails
    (pc : ProcessConfig) (n : string) (table : BaseTable)
    (cid act ev : string) (ct : option string) :
  table_named pc n = Done table ->
  class_of table = ActivityTable cid act ev (Some act) ct ->
  NoDup (map name (columns table)) ->
  In act (categorical_names table ++ numeric_names table) ->
  get_categorical_numerical_columns pc n = Fail IndexError.
Proof.
  intros Ht Hc Hnd Hin.
  assert (Hcat : NoDup (map name (categorical_columns table)))
    by now apply distinct_names_filter.
  assert (Hnum : NoDup (map name (numeric_columns table)))
    by now apply distinct_names_filter.
  unfold get_categorical_numerical_columns. rewrite Ht. cbn [and_then].
  rewrite Hc.
  fold (categorical_columns table). fold (numeric_columns table).
  change (categorical_names table) with (map name (categorical_columns table))
    in *.
  change (numeric_names table) with (map name (numeric_columns table)) in *.
  apply in_app_or in Hin. destruct Hin as [Hin|Hin].
  - assert (Hn : name_in act (map name (numeric_columns table)) = false).
    { destruct (name_in act (map name (numeric_columns table))) eqn:E;
        [|reflexivity].
      apply name_in_spec in E.
      destruct (categorical_not_numeric table act Hnd Hin E). }
    apply name_in_spec in Hin.
    rewrite (drop_column_spec act _ (categorical_columns table) Hcat).
    rewrite Hin. cbn [and_then].
    rewrite (drop_column_spec act _ (numeric_columns table) Hnum).
    rewrite Hn. cbn [and_then].
    rewrite drop_column_spec by now apply distinct_names_filter.
    rewrite Hin, name_in_dropped. reflexivity.
  - assert (Hc' : name_in act (map name (categorical_columns table)) = false).
    { destruct (name_in act (map name (categorical_columns table))) eqn:E;
        [|reflexivity].
      apply name_in_spec in E.
      destruct (categorical_not_numeric table act Hnd E Hin). }
    apply name_in_spec in Hin.
    rewrite (drop_column_spec act _ (categorical_columns table) Hcat).
    rewrite Hc'. cbn [and_then].
    rewrite (drop_column_spec act _ (numeric_columns table) Hnum).
    rewrite Hin. cbn [and_then].
    rewrite (drop_column_spec act _ (categorical_columns table) Hcat).
    rewrite Hc'. cbn [and_then].
    rewrite drop_column_spec by now apply distinct_names_filter.
    rewrite Hin, name_in_dropped. reflexivity.
Qed.

Lemma sorting_by_activity_column_fails_witness :
  table_named steps_config "STEPS" = Done steps_table /\
  NoDup (map name (columns steps_table)) /\
  In "STEP"%string (categorical_names steps_table ++ numeric_names steps_table) /\
  get_categorical_numerical_columns steps_config "STEPS" = Fail IndexError /\
  get_categorical_numerical_column_names steps_config "STEPS" =
    Done (["CASE_ID"]%string, []).
Proof.
  assert (Hnd : NoDup (map name (columns steps_table))) by distinct_names.
  assert (Hin : In "STEP"%string
                  (categorical_names steps_table ++ numeric_names steps_table))
    by (cbn; auto).
  split; [reflexivity|]. split; [exact Hnd|]. split; [exact Hin|].
  split; [|reflexivity].
  apply (sorting_by_activity_column_fails steps_config "STEPS" steps_table
           "CASE_ID" "STEP" "TS" None eq_refl eq_refl Hnd Hin).
Defined.

(** * Properties of the routing overview *)

Lemma insert_index_perm (key : nat -> Z) (i : nat) (sorted : list nat) :
  Permutation (insert_index key i sorted) (i :: sorted).
Proof.
  induction sorted as [|j rest IH]; [apply Permutation_refl|].
  cbn [insert_index]. destruct (key i <? key j); [apply Permutation_refl|].
  apply (Permutation_trans (perm_skip j IH)). apply perm_swap.
Qed.

Lemma argsort_perm (a : list Z) : Permutation (argsort a) (seq 0 (length a)).
Proof.
  unfold argsort.
  assert (G : forall l acc,
             Permutation
               (fold_left
                  (fun sorted i => insert_index (fun k => nth k a 0) i sorted)
                  l acc)
               (rev l ++ acc)).
  { induction l as [|i l IH]; intro acc; [apply Permutation_refl|].
    cbn [fold_left rev]. rewrite <- app_assoc. cbn [app].
    apply (Permutation_trans (IH _)).
    apply Permutation_app_head. apply insert_index_perm. }
  apply (Permutation_trans (G _ _)). rewrite app_nil_r.
  apply Permutation_sym, Permutation_rev.
Qed.

Lemma length_argsort (a : list Z) : length (argsort a) = length a.
Proof.
  rewrite (Permutation_length (argsort_perm a)). apply length_seq.
Qed.

Lemma sorted_indices_perm (counts : list Z) :
  Permutation (sorted_indices counts) (seq 0 (length counts)).
Proof.
  unfold sorted_indices.
  apply (Permutation_trans (Permutation_sym (Permutation_rev _))).
  apply (Permutation_trans (argsort_perm _)).
  now rewrite length_map, length_argsort.
Qed.

Lemma take_all_in_order {A : Type} (d : A) (l : list A) :
  take_in_order d l (seq 0 (length l)) = l.
Proof.
  unfold take_in_order. induction l as [|a l IH]; [reflexivity|].
  cbn [length seq map nth]. f_equal.
  rewrite <- seq_shift, map_map. exact IH.
Qed.

Lemma take_in_order_rows {A B : Type} (da : A) (db : B)
    (la : list A) (lb : list B) (indices : list nat) :
  length la = length lb ->
  (forall i, In i indices -> (i < length la)%nat) ->
  combine (take_in_order da la indices) (take_in_order db lb indices) =
  take_in_order (da, db) (combine la lb) indices.
Proof.
  intros Hlen Hin. unfold take_in_order.
  induction indices as [|i indices IH]; [reflexivity|].
  cbn [map combine]. rewrite IH by (intros j Hj; apply Hin; now right).
  f_equal. rewrite combine_nth by assumption. reflexivity.
Qed.

(** X20: the three lists of the bar plot are the three input lists in one
    common new order: target, number of cases and average duration of a
    target stay together, and no target is lost or repeated. *)
Theorem routing_bars_rows {A B : Type} (da : A) (db : B)
    (target_activities : list A) (num_cases_with_target : list Z)
    (avg_case_durations : list B) :
  length target_activities = length num_cases_with_target ->
  length avg_case_durations = length num_cases_with_target ->
  let '(targets, cases, durations) :=
    routing_bars da db target_activities num_cases_with_target
      avg_case_durations in
  Permutation
    (combine targets (combine cases durations))
    (combine target_activities
       (combine num_cases_with_target avg_case_durations)).
Proof.
  intros Ha Hb. unfold routing_bars.
  pose proof (sorted_indices_perm num_cases_with_target) as P.
  set (indices := sorted_indices num_cases_with_target) in *.
  assert (Hin : forall i, In i indices ->
                          (i < length num_cases_with_target)%nat).
  { intros i Hi. apply (Permutation_in _ P) in Hi. apply in_seq in Hi. lia. }
  rewrite (take_in_order_rows 0 db) by (try assumption; congruence).
  rewrite (take_in_order_rows da (0, db)).
  - unfold take_in_order at 1.
    apply (Permutation_trans (Permutation_map _ P)).
    fold (take_in_order (da, (0, db))
            (combine target_activities
               (combine num_cases_with_target avg_case_durations))
            (seq 0 (length num_cases_with_target))).
    replace (length num_cases_with_target)
      with (length (combine target_activities
                      (combine num_cases_with_target avg_case_durations))).
    + rewrite take_all_in_order. apply Permutation_refl.
    + rewrite !length_combine. lia.
  - rewrite length_combine. lia.
  - intros i Hi. rewrite Ha. now apply Hin.
Qed.

Lemma routing_bars_rows_witness :
  length ["B"; "C"; "D"]%string = length [3; 1; 2] /\
  length [30; 10; 20] = length [3; 1; 2] /\
  Permutation
    (combine ["C"; "B"; "D"]%string (combine [1; 3; 2] [10; 30; 20]))
    (combine ["B"; "C"; "D"]%string (combine [3; 1; 2] [30; 10; 20])).
Proof.
  split; [reflexivity|]. split; [reflexivity|].
  exact (routing_bars_rows ""%string 0 ["B"; "C"; "D"]%string [3; 1; 2]
           [30; 10; 20] eq_refl eq_refl).
Defined.

Ltac decide_comparisons :=
  repeat match goal with
         | |- context [?x <? ?y] =>
           destruct (Z.ltb_spec x y); try lia; cbn
         | |- context [?x <=? ?y] =>
           destruct (Z.leb_spec x y); try lia; cbn
         end.

(** X21: the double [argsort] yields ranks, not the order of the counts, so
    the bars are not sorted in general: two targets always come out from
    the larger to the smaller number of cases, but of three targets of which
    the first has the most cases and the second the fewest, the one with the
    fewest cases comes first. *)
Theorem routing_bars_order (a b c : Z) :
  descending (take_in_order 0 [a; b] (sorted_indices [a; b])) = true /\
  (b < c -> c < a ->
   sorted_indices [a; b; c] = [1; 0; 2]%nat /\
   take_in_order 0 [a; b; c] (sorted_indices [a; b; c]) = [b; a; c] /\
   descending (take_in_order 0 [a; b; c] (sorted_indices [a; b; c])) = false).
Proof.
  split.
  - unfold sorted_indices, argsort, take_in_order. cbn.
    decide_comparisons; try reflexivity.
  - intros Hbc Hca.
    assert (E : sorted_indices [a; b; c] = [1; 0; 2]%nat).
    { unfold sorted_indices, argsort. cbn. decide_comparisons;
        try reflexivity. }
    rewrite E. split; [reflexivity|]. split; [reflexivity|].
    cbn. decide_comparisons; try reflexivity.
Qed.

Lemma routing_bars_order_witness :
  1 < 2 /\ 2 < 3 /\
  take_in_order 0 [3; 1; 2] (sorted_indices [3; 1; 2]) = [1; 3; 2].
Proof.
  split; [lia|]. split; [lia|].
  apply (routing_bars_order 3 1 2); lia.
Defined.
